(** * ME-AI: challenge issuance and verification engine

    A shallow embedding of [src/services/verificationService.ts] (both
    revisions of the file that the repository carries) together with the
    types of [src/types.ts].

    Conventions of the embedding.
    - A JavaScript [number] is an exact rational ([Q]).  IEEE rounding, NaN
      and the infinities are outside the model; clock readings are integers.
    - A JavaScript string is a list of UTF-16 code units ([jsstring]) wherever
      caller-chosen text flows through it (the challenge identifier); text the
      program assembles from ASCII pieces is a [string].
    - [Date.now()] and [Math.random()] read an explicit [World]; exceptions
      are an explicit outcome. *)

From Stdlib Require Import ZArith QArith Qround Qminmax List String Ascii Lia Lqa Bool.
From Stdlib Require Import DecimalString HexadecimalString.
From Stdlib Require Import Qabs Permutation NArith.
Import ListNotations.

Local Open Scope Q_scope.

(* ================================================================== *)
(** ** The platform: outcomes, the world, a state-and-exception monad *)
(* ================================================================== *)

Inductive exn : Type :=
| TypeError              (* reduce of an empty array with no initial value *)
| InvalidCharacterError. (* btoa on a code unit above 0xFF *)

Inductive outcome (A : Type) : Type :=
| Returned (a : A)
| Thrown (e : exn).
Arguments Returned {A} a.
Arguments Thrown {A} e.

(** The [n]-th call of [Date.now()] reads [clock n]; the [n]-th call of
    [Math.random()] consumes [seeds n]. *)
Record World : Type := mkWorld {
  clock : nat -> Z;
  ticks : nat;
  seeds : nat -> N;
  draws : nat
}.

Definition M (A : Type) : Type := World -> outcome A * World.

Definition ret {A} (a : A) : M A := fun w => (Returned a, w).

Definition throw {A} (e : exn) : M A := fun w => (Thrown e, w).

Definition bind {A B} (m : M A) (k : A -> M B) : M B :=
  fun w => match m w with
           | (Returned a, w') => k a w'
           | (Thrown e, w') => (Thrown e, w')
           end.

Definition lift {A} (o : outcome A) : M A := fun w => (o, w).

Notation "x <- m ;; k" := (bind m (fun x => k))
  (at level 61, m at next level, right associativity).

Definition Date_now : M Z :=
  fun w => (Returned (clock w (ticks w)),
            mkWorld (clock w) (S (ticks w)) (seeds w) (draws w)).

(** [Math.random()] yields a multiple of 2^-53 in the half-open unit
    interval. *)
Definition unit_fraction (seed : N) : Q :=
  Z.of_N (seed mod 2 ^ 53) # (2 ^ 53).

Definition Math_random : M Q :=
  fun w => (Returned (unit_fraction (seeds w (draws w))),
            mkWorld (clock w) (ticks w) (seeds w) (S (draws w))).

(* ================================================================== *)
(** ** The platform: numbers *)
(* ================================================================== *)

Definition number : Type := Q.

Definition Math_floor (x : number) : Z := Qfloor x.

(** [Math.round] rounds halves towards plus infinity. *)
Definition Math_round (x : number) : Z := Qfloor (x + (1 # 2)).

Definition Math_min (x y : number) : number := if Qle_bool x y then x else y.

Definition Math_pow2 (x : number) : number := x * x.

Definition num_gt (x y : number) : bool := negb (Qle_bool x y).
Definition num_lt (x y : number) : bool := negb (Qle_bool y x).
Definition num_ge (x y : number) : bool := Qle_bool y x.

(** [String(n)] of an integer. *)
Definition Z_toString (z : Z) : string :=
  DecimalString.NilZero.string_of_int (Z.to_int z).

(** [n.toString(16)] of a non-negative integer. *)
Definition Z_toString16 (z : Z) : string :=
  HexadecimalString.NilZero.string_of_uint (N.to_hex_uint (Z.to_N z)).

(* ================================================================== *)
(** ** The platform: strings, JSON.stringify and btoa *)
(* ================================================================== *)

Definition jsstring : Type := list N.

Definition lit (s : string) : jsstring :=
  map (fun c => N_of_ascii c) (list_ascii_of_string s).

Definition latin1 (s : jsstring) : Prop := Forall (fun u => (u <= 255)%N) s.

Definition latin1b (s : jsstring) : bool := forallb (fun u => (u <=? 255)%N) s.

(** [s.replace(/_/g, ' ')]. *)
Fixpoint replace_underscores (s : string) : string :=
  match s with
  | EmptyString => EmptyString
  | String c s' =>
      String (if Ascii.eqb c "_" then " "%char else c) (replace_underscores s')
  end.

Definition to_upper (c : ascii) : ascii :=
  let n := nat_of_ascii c in
  if (andb (97 <=? n) (n <=? 122))%nat then ascii_of_nat (n - 32) else c.

Fixpoint toUpperCase (s : string) : string :=
  match s with
  | EmptyString => EmptyString
  | String c s' => String (to_upper c) (toUpperCase s')
  end.

(** [s.substring(n)] for a non-negative [n]. *)
Fixpoint substring_from (n : nat) (s : string) : string :=
  match n, s with
  | O, _ => s
  | S n', String _ s' => substring_from n' s'
  | S _, EmptyString => EmptyString
  end.

Definition hex_digit (n : N) : N :=
  if (n <? 10)%N then (48 + n)%N else (87 + n)%N.

(** The six code units of a [\uXXXX] escape. *)
Definition unicode_escape (u : N) : jsstring :=
  [92; 117;
   hex_digit (N.shiftr u 12 mod 16); hex_digit (N.shiftr u 8 mod 16);
   hex_digit (N.shiftr u 4 mod 16); hex_digit (u mod 16)]%N.

Definition is_high_surrogate (u : N) : bool := ((55296 <=? u) && (u <=? 56319))%N.
Definition is_low_surrogate (u : N) : bool := ((56320 <=? u) && (u <=? 57343))%N.

Definition quote_unit (u : N) : jsstring :=
  if (u =? 8)%N then [92; 98]%N
  else if (u =? 9)%N then [92; 116]%N
  else if (u =? 10)%N then [92; 110]%N
  else if (u =? 12)%N then [92; 102]%N
  else if (u =? 13)%N then [92; 114]%N
  else if (u =? 34)%N then [92; 34]%N
  else if (u =? 92)%N then [92; 92]%N
  else if (u <? 32)%N then unicode_escape u
  else if is_high_surrogate u || is_low_surrogate u then unicode_escape u
  else [u].

(** The body of a JSON string literal: well-formed [JSON.stringify] escapes
    control characters, the quote, the backslash and lone surrogates, and
    passes every other code unit through. *)
Fixpoint quote_body (s : jsstring) : jsstring :=
  match s with
  | [] => []
  | u :: s' =>
      if is_high_surrogate u then
        match s' with
        | v :: s'' =>
            if is_low_surrogate v then u :: v :: quote_body s''
            else quote_unit u ++ quote_body s'
        | [] => quote_unit u
        end
      else quote_unit u ++ quote_body s'
  end.

Definition JSON_string (s : jsstring) : jsstring := [34%N] ++ quote_body s ++ [34%N].

Definition base64_char (n : N) : ascii :=
  if (n <? 26)%N then ascii_of_N (65 + n)
  else if (n <? 52)%N then ascii_of_N (71 + n)
  else if (n <? 62)%N then ascii_of_N (n - 4)
  else if (n =? 62)%N then "+"%char
  else "/"%char.

Fixpoint base64 (bytes : list N) : string :=
  match bytes with
  | [] => EmptyString
  | [a] =>
      String (base64_char (a / 4))
     (String (base64_char (a mod 4 * 16)) "==")
  | [a; b] =>
      String (base64_char (a / 4))
     (String (base64_char (a mod 4 * 16 + b / 16))
     (String (base64_char (b mod 16 * 4)) "="))
  | a :: b :: c :: rest =>
      String (base64_char (a / 4))
     (String (base64_char (a mod 4 * 16 + b / 16))
     (String (base64_char (b mod 16 * 4 + c / 64))
     (String (base64_char (c mod 64)) (base64 rest))))
  end%N.

(** [btoa] throws on any code unit that does not fit a byte. *)
Definition btoa (s : jsstring) : outcome string :=
  if latin1b s then Returned (base64 s) else Thrown InvalidCharacterError.

(* ================================================================== *)
(** ** The platform: arrays *)
(* ================================================================== *)

(** [data.reduce(f)] without an initial value throws on the empty array. *)
Definition reduce1 {A} (f : A -> A -> A) (data : list A) : outcome A :=
  match data with
  | [] => Thrown TypeError
  | x :: xs => Returned (fold_left f xs x)
  end.

(** [data.reduce(f, init)]. *)
Definition reduce {A B} (f : B -> A -> B) (init : B) (data : list A) : B :=
  fold_left f data init.

Definition length_number {A} (l : list A) : number :=
  inject_Z (Z.of_nat (List.length l)).


(** [JSON.stringify] of an object whose values are already serialised. *)
Fixpoint JSON_members (fields : list (string * jsstring)) : jsstring :=
  match fields with
  | [] => []
  | [(k, v)] => JSON_string (lit k) ++ lit ":" ++ v
  | (k, v) :: rest => JSON_string (lit k) ++ lit ":" ++ v ++ lit "," ++ JSON_members rest
  end.

Definition JSON_object (fields : list (string * jsstring)) : jsstring :=
  lit "{" ++ JSON_members fields ++ lit "}".

Definition JSON_number (z : Z) : jsstring := lit (Z_toString z).

(* ================================================================== *)
(** ** Data model ([src/types.ts]) *)
(* ================================================================== *)

Inductive GestureType : Type := left_hand_up | right_hand_up | touch_nose.

Inductive ExpressionType : Type := smile | frown | blink.

Definition GestureType_text (g : GestureType) : string :=
  match g with
  | left_hand_up => "left_hand_up"
  | right_hand_up => "right_hand_up"
  | touch_nose => "touch_nose"
  end.

Definition ExpressionType_text (e : ExpressionType) : string :=
  match e with
  | smile => "smile"
  | frown => "frown"
  | blink => "blink"
  end.

Record Challenge : Type := mkChallenge {
  id : jsstring;
  gesture : GestureType;
  expression : ExpressionType;
  expiresAt : number
}.

Record VerificationResult : Type := mkResult {
  success : bool;
  score : number;
  token : option string;
  reasons : list string
}.

Module LandmarkData.
Record t : Type := mk {
  left_hand_y : number;
  right_hand_y : number;
  shoulder_y : number;
  mouth_width : number;
  brow_distance : number;
  hand_nose_dist : number;
  eye_ratio : number;
  timestamp : number
}.
End LandmarkData.

Record FrameData : Type := mkFrame {
  timestamp : number;
  eye_ratio : number;
  landmarks : LandmarkData.t
}.

(* ================================================================== *)
(** ** VerificationService *)
(* ================================================================== *)

(** The repository carries two revisions of the service.  [Strict] is the
    one with [MIN_PASS_RATIO = 0.20], [Lenient] the one with
    [MIN_PASS_RATIO = 0.15]; they differ in constants, in wording and in
    the token layout. *)
Inductive Revision : Type := Strict | Lenient.

Definition CHALLENGE_EXPIRY : Z := 45000.

Definition MIN_PASS_RATIO (rev : Revision) : number :=
  match rev with Strict => 0.20 | Lenient => 0.15 end.

Definition NOSE_PROXIMITY (rev : Revision) : number :=
  match rev with Strict => 0.16 | Lenient => 0.20 end.

Definition SMILE_WIDTH (rev : Revision) : number :=
  match rev with Strict => 0.075 | Lenient => 0.07 end.

Definition FROWN_DISTANCE (rev : Revision) : number :=
  match rev with Strict => 0.025 | Lenient => 0.03 end.

Definition BLINK_RATIO (rev : Revision) : number :=
  match rev with Strict => 0.012 | Lenient => 0.012 end.

Definition NOISE_FLOOR (rev : Revision) : number :=
  match rev with Strict => 0.000000005 | Lenient => 0.000000001 end.

Definition gestures : list GestureType := [left_hand_up; right_hand_up; touch_nose].

Definition expressions : list ExpressionType := [smile; frown; blink].

Section GenerateChallenge.

(** [Number.prototype.toString(36)] on a fraction; the identifier is the
    only value that depends on it. *)
Variable Number_toString36 : number -> string.

(** [gestures[i]] with [i] outside the array would read [undefined]; the
    last argument of [nth] stands for that value, and
    [generateChallenge_index_in_range] shows it is never read. *)
Definition generateChallenge : M Challenge :=
  r0 <- Math_random ;;
  r1 <- Math_random ;;
  r2 <- Math_random ;;
  now <- Date_now ;;
  ret {| id := lit (toUpperCase (substring_from 7 (Number_toString36 r0)));
         gesture :=
           nth (Z.to_nat (Math_floor (r1 * length_number gestures)))
               gestures touch_nose;
         expression :=
           nth (Z.to_nat (Math_floor (r2 * length_number expressions)))
               expressions blink;
         expiresAt := inject_Z now + inject_Z CHALLENGE_EXPIRY |}.

End GenerateChallenge.

(** The gesture branch of the per-frame callback. *)
Definition gestureDetected (rev : Revision) (g : GestureType)
    (l : LandmarkData.t) : bool :=
  match g with
  | left_hand_up =>
      num_gt (LandmarkData.left_hand_y l) 0
      && num_lt (LandmarkData.left_hand_y l) (LandmarkData.shoulder_y l)
  | right_hand_up =>
      num_gt (LandmarkData.right_hand_y l) 0
      && num_lt (LandmarkData.right_hand_y l) (LandmarkData.shoulder_y l)
  | touch_nose => num_lt (LandmarkData.hand_nose_dist l) (NOSE_PROXIMITY rev)
  end.

(** The expression branch of the per-frame callback. *)
Definition expressionDetected (rev : Revision) (e : ExpressionType)
    (l : LandmarkData.t) : bool :=
  match e with
  | smile => num_gt (LandmarkData.mouth_width l) (SMILE_WIDTH rev)
  | frown => num_lt (LandmarkData.brow_distance l) (FROWN_DISTANCE rev)
  | blink => num_lt (LandmarkData.eye_ratio l) (BLINK_RATIO rev)
  end.

(** The two counters [gesturePassCount] and [expressionPassCount] that the
    [forEach] callback increments. *)
Definition Counters : Type := (Z * Z)%type.

Definition countFrame (rev : Revision) (challenge : Challenge)
    (counters : Counters) (f : FrameData) : Counters :=
  let landmarks := landmarks f in
  let (gesturePassCount, expressionPassCount) := counters in
  ((if gestureDetected rev (gesture challenge) landmarks
    then gesturePassCount + 1 else gesturePassCount)%Z,
   (if expressionDetected rev (expression challenge) landmarks
    then expressionPassCount + 1 else expressionPassCount)%Z).

Definition countFrames (rev : Revision) (challenge : Challenge)
    (frames : list FrameData) : Counters :=
  fold_left (countFrame rev challenge) frames (0%Z, 0%Z).

Definition calculateVariance (data : list number) : outcome number :=
  match reduce1 Qplus data with
  | Thrown e => Thrown e
  | Returned total =>
      let mean := total / length_number data in
      Returned (reduce (fun a b => a + Math_pow2 (b - mean)) 0 data
                / length_number data)
  end.

Definition passRatio (passCount : Z) (frameCount : number) : number :=
  inject_Z passCount / frameCount.

Definition factorPassed (rev : Revision) (ratio : number) : bool :=
  num_ge ratio (MIN_PASS_RATIO rev).

Definition isHumanNoiseDetected (rev : Revision) (variance : number) : bool :=
  num_gt variance (NOISE_FLOOR rev).

(** One of the two capped 40-point terms of [displayScore]. *)
Definition ratioPoints (ratio : number) : number :=
  Math_min (ratio / 0.4) 1 * 40.

Definition livenessPoints (livenessPassed : bool) : number :=
  if livenessPassed then 20 else 0.

Definition displayScore (gestureRatio expressionRatio : number)
    (livenessPassed : bool) : Z :=
  Math_round (ratioPoints gestureRatio + ratioPoints expressionRatio
              + livenessPoints livenessPassed).

Definition percent (ratio : number) : string :=
  Z_toString (Math_round (ratio * 100)).

Definition gestureReason (rev : Revision) (g : GestureType)
    (gesturePassed : bool) (gestureRatio : number) : string :=
  if negb gesturePassed then
    match rev with
    | Strict => "CRITICAL: Mandatory gesture ("
                ++ replace_underscores (GestureType_text g) ++ ") not detected"
    | Lenient => "CRITICAL: Mandatory gesture ("
                 ++ replace_underscores (GestureType_text g) ++ ") missing"
    end
  else
    match rev with
    | Strict => "Gesture sequence verified: " ++ percent gestureRatio
                ++ "% temporal match"
    | Lenient => "Gesture confirmed: " ++ percent gestureRatio ++ "% match"
    end.

Definition expressionReason (rev : Revision) (e : ExpressionType)
    (expressionPassed : bool) (expressionRatio : number) : string :=
  if negb expressionPassed then
    match rev with
    | Strict => "CRITICAL: Mandatory expression ("
                ++ ExpressionType_text e ++ ") not detected"
    | Lenient => "CRITICAL: Mandatory expression ("
                 ++ ExpressionType_text e ++ ") missing"
    end
  else
    match rev with
    | Strict => "Expression micro-signature verified: "
                ++ percent expressionRatio ++ "% temporal match"
    | Lenient => "Expression confirmed: " ++ percent expressionRatio ++ "% match"
    end.

Definition livenessReason (rev : Revision) (livenessPassed : bool) : string :=
  if negb livenessPassed then
    match rev with
    | Strict => "CRITICAL: Temporal authenticity failed (Static subject suspected)"
    | Lenient => "CRITICAL: Temporal authenticity failure"
    end
  else
    match rev with
    | Strict => "Temporal noise verified (Human subject confirmed)"
    | Lenient => "Temporal authenticity confirmed"
    end.

(** The closing line; only the [Strict] revision pushes one. *)
Definition summaryReason (rev : Revision) (success : bool) : list string :=
  match rev with
  | Strict =>
      if success then ["All security layers validated successfully"%string] else []
  | Lenient => []
  end.

Definition generateToken (rev : Revision) (challengeId : jsstring) : M string :=
  match rev with
  | Strict =>
      header <- lift (btoa (JSON_object
                  [("alg"%string, JSON_string (lit "HS256"));
                   ("typ"%string, JSON_string (lit "JWT"))])) ;;
      issued <- Date_now ;;
      expiring <- Date_now ;;
      payload <- lift (btoa (JSON_object
                  [("sub"%string, JSON_string (lit "biometric_auth"));
                   ("cid"%string, JSON_string challengeId);
                   ("iat"%string,
                    JSON_number (Math_floor (inject_Z issued / 1000)));
                   ("exp"%string,
                    JSON_number (Z.add (Math_floor (inject_Z expiring / 1000)) 600))])) ;;
      r <- Math_random ;;
      ret ("MFPOL." ++ header ++ "." ++ payload ++ ".sig_0x"
           ++ Z_toString16 (Math_floor (r * 16777215)))%string
  | Lenient =>
      encodedId <- lift (btoa challengeId) ;;
      now <- Date_now ;;
      encodedNow <- lift (btoa (lit (Z_toString now))) ;;
      r <- Math_random ;;
      ret ("MFPOL." ++ encodedId ++ "." ++ encodedNow ++ ".sig_"
           ++ Z_toString16 (Math_floor (r * 16777215)))%string
  end.

Definition timeoutResult : VerificationResult :=
  {| success := false; score := 0; token := None;
     reasons := ["Protocol timeout: session expired"%string] |}.

Definition densityResult : VerificationResult :=
  {| success := false; score := 0; token := None;
     reasons := ["Data density failure: insufficient biometric stream"%string] |}.

(** The part of [verify] after the two guards. *)
Definition evaluate (rev : Revision) (challenge : Challenge)
    (frames : list FrameData) : M VerificationResult :=
  let (gesturePassCount, expressionPassCount) :=
    countFrames rev challenge frames in
  let gestureRatio := passRatio gesturePassCount (length_number frames) in
  let expressionRatio := passRatio expressionPassCount (length_number frames) in
  let earValues := map eye_ratio frames in
  variance <- lift (calculateVariance earValues) ;;
  let gesturePassed := factorPassed rev gestureRatio in
  let expressionPassed := factorPassed rev expressionRatio in
  let livenessPassed := isHumanNoiseDetected rev variance in
  let success := gesturePassed && expressionPassed && livenessPassed in
  let reasons :=
    [gestureReason rev (gesture challenge) gesturePassed gestureRatio;
     expressionReason rev (expression challenge) expressionPassed expressionRatio;
     livenessReason rev livenessPassed]
    ++ summaryReason rev success in
  token <- (if success
            then t <- generateToken rev (id challenge) ;; ret (Some t)
            else ret None) ;;
  ret {| success := success;
         score := inject_Z (displayScore gestureRatio expressionRatio livenessPassed);
         token := token;
         reasons := reasons |}.

Definition verify (rev : Revision) (challenge : Challenge)
    (frames : list FrameData) : M VerificationResult :=
  now <- Date_now ;;
  if num_gt (inject_Z now) (expiresAt challenge) then ret timeoutResult
  else if (List.length frames <? 15)%nat then ret densityResult
  else evaluate rev challenge frames.

(* ================================================================== *)
(** ** Reference notions used in the statements *)
(* ================================================================== *)

(** The world after one more clock reading. *)
Definition afterClockRead (w : World) : World :=
  mkWorld (clock w) (S (ticks w)) (seeds w) (draws w).

(** The reading the next [Date.now()] returns. *)
Definition currentTime (w : World) : number := inject_Z (clock w (ticks w)).

(** Number of frames on which a predicate holds. *)
Definition passingFrames (p : FrameData -> bool) (frames : list FrameData) : nat :=
  List.length (filter p frames).

Definition gesturePassing (rev : Revision) (challenge : Challenge)
    (f : FrameData) : bool :=
  gestureDetected rev (gesture challenge) (landmarks f).

Definition expressionPassing (rev : Revision) (challenge : Challenge)
    (f : FrameData) : bool :=
  expressionDetected rev (expression challenge) (landmarks f).

(** Passing frames over total frames. *)
Definition frameRatio (p : FrameData -> bool) (frames : list FrameData) : number :=
  inject_Z (Z.of_nat (passingFrames p frames))
  / inject_Z (Z.of_nat (List.length frames)).

Definition Qsum (l : list Q) : Q := fold_right Qplus 0 l.

(** Population variance as the textbook has it: the mean of the squared
    deviations from the arithmetic mean. *)
Definition populationVariance (l : list Q) : Q :=
  let n := inject_Z (Z.of_nat (List.length l)) in
  let mu := Qsum l / n in
  Qsum (map (fun x => (x - mu) * (x - mu)) l) / n.

(** A reason line that reports a failed factor. *)
Definition isFailureLine (s : string) : bool := String.prefix "CRITICAL: " s.

(* ================================================================== *)
(** ** Sample inputs *)
(* ================================================================== *)

Definition sampleWorld : World :=
  mkWorld (fun _ => 1700000000000%Z) 0 (fun _ => 4503599627370496%N) 0.

Definition sampleLandmarks (hand_nose_dist eye_ratio : number) : LandmarkData.t :=
  {| LandmarkData.left_hand_y := -1;
     LandmarkData.right_hand_y := -1;
     LandmarkData.shoulder_y := 0.5;
     LandmarkData.mouth_width := 0.05;
     LandmarkData.brow_distance := 0.05;
     LandmarkData.hand_nose_dist := hand_nose_dist;
     LandmarkData.eye_ratio := eye_ratio;
     LandmarkData.timestamp := 1700000000000 |}.

Definition sampleFrame (hand_nose_dist eye_ratio : number) : FrameData :=
  {| timestamp := 1700000000000;
     eye_ratio := eye_ratio;
     landmarks := sampleLandmarks hand_nose_dist eye_ratio |}.

(** [2 * n] frames with the hand at the nose and the eye ratio alternating
    between 0.008 and 0.014. *)
Fixpoint blinkingFrames (n : nat) : list FrameData :=
  match n with
  | O => []
  | S k => sampleFrame 0.05 0.008 :: sampleFrame 0.05 0.014 :: blinkingFrames k
  end.

(** [n] identical frames: hand at the nose, eye ratio frozen at 0.010. *)
Definition frozenFrames (n : nat) : list FrameData :=
  repeat (sampleFrame 0.05 0.010) n.

Definition sampleChallenge : Challenge :=
  {| id := lit "K3X9Q"; gesture := touch_nose; expression := blink;
     expiresAt := 1700000045000 |}.

Definition raisedHandChallenge : Challenge :=
  {| id := lit "K3X9Q"; gesture := left_hand_up; expression := smile;
     expiresAt := 1700000045000 |}.

(** A challenge whose identifier is the euro sign, U+20AC. *)
Definition euroChallenge : Challenge :=
  {| id := [8364%N]; gesture := touch_nose; expression := blink;
     expiresAt := 1700000045000 |}.

Definition expiredChallenge : Challenge :=
  {| id := lit "K3X9Q"; gesture := touch_nose; expression := blink;
     expiresAt := 1699999999999 |}.

(* ================================================================== *)
(** ** Reading a token back *)
(* ================================================================== *)

(** The value of a character of the base-64 alphabet. *)
Definition base64_value (c : ascii) : option N :=
  let n := N_of_ascii c in
  if ((65 <=? n) && (n <=? 90))%N then Some (n - 65)%N
  else if ((97 <=? n) && (n <=? 122))%N then Some (n - 71)%N
  else if ((48 <=? n) && (n <=? 57))%N then Some (n + 4)%N
  else if (n =? 43)%N then Some 62%N
  else if (n =? 47)%N then Some 63%N
  else None.

(** The decoder for padded base-64 text, as [atob] reads what [btoa]
    wrote. *)
Fixpoint decode_base64 (s : string) : option (list N) :=
  match s with
  | EmptyString => Some []
  | String c1 (String c2 (String c3 (String c4 rest))) =>
      match base64_value c1, base64_value c2 with
      | Some v1, Some v2 =>
          let b1 := (v1 * 4 + v2 / 16)%N in
          if Ascii.eqb c3 "=" then
            if Ascii.eqb c4 "=" then
              match rest with EmptyString => Some [b1] | _ => None end
            else None
          else
            match base64_value c3 with
            | Some v3 =>
                let b2 := (v2 mod 16 * 16 + v3 / 4)%N in
                if Ascii.eqb c4 "=" then
                  match rest with EmptyString => Some [b1; b2] | _ => None end
                else
                  match base64_value c4, decode_base64 rest with
                  | Some v4, Some bytes =>
                      Some (b1 :: b2 :: (v3 mod 4 * 64 + v4)%N :: bytes)
                  | _, _ => None
                  end
            | None => None
            end
      | _, _ => None
      end
  | _ => None
  end.

(** Two frames that differ at most in their two timestamps. *)
Definition sameReadings (f g : FrameData) : Prop :=
  eye_ratio f = eye_ratio g
  /\ LandmarkData.left_hand_y (landmarks f) = LandmarkData.left_hand_y (landmarks g)
  /\ LandmarkData.right_hand_y (landmarks f) = LandmarkData.right_hand_y (landmarks g)
  /\ LandmarkData.shoulder_y (landmarks f) = LandmarkData.shoulder_y (landmarks g)
  /\ LandmarkData.mouth_width (landmarks f) = LandmarkData.mouth_width (landmarks g)
  /\ LandmarkData.brow_distance (landmarks f) = LandmarkData.brow_distance (landmarks g)
  /\ LandmarkData.hand_nose_dist (landmarks f) = LandmarkData.hand_nose_dist (landmarks g)
  /\ LandmarkData.eye_ratio (landmarks f) = LandmarkData.eye_ratio (landmarks g).

(* ================================================================== *)
(** ** App ([src/App.tsx]): the callbacks that feed the service *)
(* ================================================================== *)

Inductive AppState : Type := IDLE | CHALLENGE | VERIFYING | RESULT.

(** The updater that [startVerification] hands to [setCountdown] once a
    second. *)
Definition countdownTick (prev : number) : number :=
  if Qle_bool prev 1 then 0 else prev - 1.

(** [handleFrame]: the updater handed to [setFrames], run on the frames
    collected so far. *)
Definition handleFrame (state : AppState) (landmarks : LandmarkData.t)
    (prev : list FrameData) : M (list FrameData) :=
  match state with
  | CHALLENGE =>
      now <- Date_now ;;
      ret (prev ++ [ {| timestamp := inject_Z now;
                        eye_ratio := LandmarkData.eye_ratio landmarks;
                        landmarks := landmarks |} ])
  | _ => ret prev
  end.

(* ================================================================== *)
(** ** CameraView ([src/App.tsx]): from tracker results to the snapshot *)
(* ================================================================== *)

Module Point.
Record t : Type := mk { x : number; y : number }.
End Point.

(** A landmark array of the tracker, read at indices it always has (a face
    has 468 points or more, a hand 21). *)
Definition Landmarks : Type := nat -> Point.t.

(** The refs the two result callbacks share. *)
Record Sensor : Type := mkSensor {
  sharedState : LandmarkData.t;
  currentNose : option Point.t;
  isClosed : bool
}.

(** The initial value of [sharedState]; [mounted] is the clock reading
    taken when the component mounts. *)
Definition initialSharedState (mounted : Z) : LandmarkData.t :=
  {| LandmarkData.left_hand_y := -1;
     LandmarkData.right_hand_y := -1;
     LandmarkData.shoulder_y := 0.75;
     LandmarkData.mouth_width := 0;
     LandmarkData.brow_distance := 0;
     LandmarkData.hand_nose_dist := 1;
     LandmarkData.eye_ratio := 0.02;
     LandmarkData.timestamp := inject_Z mounted |}.

(** The callback of [faceMesh.onResults]; the canvas drawing, which does
    not touch the refs, is left out. *)
Definition onFaceResults (multiFaceLandmarks : option (list Landmarks))
    (s : Sensor) : Sensor :=
  if isClosed s then s
  else
    match multiFaceLandmarks with
    | None | Some [] =>
        {| sharedState := sharedState s; currentNose := None;
           isClosed := isClosed s |}
    | Some (face :: _) =>
        let nose := face 1%nat in
        let chin := face 152%nat in
        let shared := sharedState s in
        {| currentNose := Some {| Point.x := Point.x nose; Point.y := Point.y nose |};
           sharedState :=
             {| LandmarkData.left_hand_y := LandmarkData.left_hand_y shared;
                LandmarkData.right_hand_y := LandmarkData.right_hand_y shared;
                LandmarkData.shoulder_y := Point.y chin + 0.15;
                LandmarkData.mouth_width :=
                  Qabs (Point.x (face 61%nat) - Point.x (face 291%nat));
                LandmarkData.brow_distance :=
                  Qabs (Point.y (face 55%nat) - Point.y (face 285%nat));
                LandmarkData.hand_nose_dist := LandmarkData.hand_nose_dist shared;
                LandmarkData.eye_ratio :=
                  Qabs (Point.y (face 159%nat) - Point.y (face 145%nat));
                LandmarkData.timestamp := LandmarkData.timestamp shared |};
           isClosed := isClosed s |}
    end.

(** What the loop over the detected hands carries along: the two hand
    heights written so far and the three locals. *)
Record HandScan : Type := mkHandScan {
  scan_left_hand_y : number;
  scan_right_hand_y : number;
  foundLeft : bool;
  foundRight : bool;
  minNoseDist : number
}.

Section HandTracking.

(** [Math.sqrt]; its results are not rationals in general, so the function
    is a parameter of the callback. *)
Variable Math_sqrt : number -> number.

(** The body of the [forEach] over [results.multiHandLandmarks]. *)
Definition scanHand (nose : option Point.t) (scan : HandScan)
    (landmarks : Landmarks) : HandScan :=
  let wrist := landmarks 0%nat in
  let indexTip := landmarks 8%nat in
  let isRightHand := num_lt (Point.x wrist) 0.5 in
  let isLeftHand := num_ge (Point.x wrist) 0.5 in
  let scan1 :=
    if isLeftHand then
      {| scan_left_hand_y := Point.y wrist;
         scan_right_hand_y := scan_right_hand_y scan;
         foundLeft := true; foundRight := foundRight scan;
         minNoseDist := minNoseDist scan |}
    else if isRightHand then
      {| scan_left_hand_y := scan_left_hand_y scan;
         scan_right_hand_y := Point.y wrist;
         foundLeft := foundLeft scan; foundRight := true;
         minNoseDist := minNoseDist scan |}
    else scan in
  match nose with
  | Some nose =>
      let d := Math_sqrt (Math_pow2 (Point.x indexTip - Point.x nose)
                          + Math_pow2 (Point.y indexTip - Point.y nose)) in
      {| scan_left_hand_y := scan_left_hand_y scan1;
         scan_right_hand_y := scan_right_hand_y scan1;
         foundLeft := foundLeft scan1; foundRight := foundRight scan1;
         minNoseDist := Math_min (minNoseDist scan1) d |}
  | None => scan1
  end.

Definition withHands (shared : LandmarkData.t)
    (left_hand_y right_hand_y hand_nose_dist : number) : LandmarkData.t :=
  {| LandmarkData.left_hand_y := left_hand_y;
     LandmarkData.right_hand_y := right_hand_y;
     LandmarkData.shoulder_y := LandmarkData.shoulder_y shared;
     LandmarkData.mouth_width := LandmarkData.mouth_width shared;
     LandmarkData.brow_distance := LandmarkData.brow_distance shared;
     LandmarkData.hand_nose_dist := hand_nose_dist;
     LandmarkData.eye_ratio := LandmarkData.eye_ratio shared;
     LandmarkData.timestamp := LandmarkData.timestamp shared |}.

(** The callback of [hands.onResults]; the canvas drawing is left out. *)
Definition onHandsResults (multiHandLandmarks : option (list Landmarks))
    (s : Sensor) : Sensor :=
  if isClosed s then s
  else
    match multiHandLandmarks with
    | None | Some [] =>
        {| sharedState := withHands (sharedState s) (-1) (-1) 1;
           currentNose := currentNose s; isClosed := isClosed s |}
    | Some hands =>
        let shared := sharedState s in
        let scan :=
          fold_left (scanHand (currentNose s)) hands
            {| scan_left_hand_y := LandmarkData.left_hand_y shared;
               scan_right_hand_y := LandmarkData.right_hand_y shared;
               foundLeft := false; foundRight := false; minNoseDist := 1 |} in
        {| sharedState :=
             withHands shared
               (if negb (foundLeft scan) then -1 else scan_left_hand_y scan)
               (if negb (foundRight scan) then -1 else scan_right_hand_y scan)
               (minNoseDist scan);
           currentNose := currentNose s; isClosed := isClosed s |}
    end.

End HandTracking.

(** The snapshot the camera loop hands to [onFrame]:
    [{...sharedState.current, timestamp: Date.now()}]. *)
Definition cameraSnapshot (shared : LandmarkData.t) : M LandmarkData.t :=
  now <- Date_now ;;
  ret {| LandmarkData.left_hand_y := LandmarkData.left_hand_y shared;
         LandmarkData.right_hand_y := LandmarkData.right_hand_y shared;
         LandmarkData.shoulder_y := LandmarkData.shoulder_y shared;
         LandmarkData.mouth_width := LandmarkData.mouth_width shared;
         LandmarkData.brow_distance := LandmarkData.brow_distance shared;
         LandmarkData.hand_nose_dist := LandmarkData.hand_nose_dist shared;
         LandmarkData.eye_ratio := LandmarkData.eye_ratio shared;
         LandmarkData.timestamp := inject_Z now |}.

(* ================================================================== *)
(** ** Further reference notions and sample inputs *)
(* ================================================================== *)

(** The frame with both of its timestamps replaced. *)
Definition restamp (t : number) (f : FrameData) : FrameData :=
  {| timestamp := t;
     eye_ratio := eye_ratio f;
     landmarks :=
       {| LandmarkData.left_hand_y := LandmarkData.left_hand_y (landmarks f);
          LandmarkData.right_hand_y := LandmarkData.right_hand_y (landmarks f);
          LandmarkData.shoulder_y := LandmarkData.shoulder_y (landmarks f);
          LandmarkData.mouth_width := LandmarkData.mouth_width (landmarks f);
          LandmarkData.brow_distance := LandmarkData.brow_distance (landmarks f);
          LandmarkData.hand_nose_dist := LandmarkData.hand_nose_dist (landmarks f);
          LandmarkData.eye_ratio := LandmarkData.eye_ratio (landmarks f);
          LandmarkData.timestamp := t |} |}.

(** A rational stand-in for [Math.sqrt]: four Newton steps from 1. *)
Definition sampleSqrt (x : number) : number :=
  if Qle_bool x 0 then 0
  else Nat.iter 4 (fun y => (y + x / y) / 2) 1.

(** A hand of which only the wrist and the tip of the index finger
    matter. *)
Definition sampleHand (wrist indexTip : Point.t) : Landmarks :=
  fun i =>
    match i with
    | 0%nat => wrist
    | 8%nat => indexTip
    | _ => {| Point.x := 0; Point.y := 0 |}
    end.

Definition sampleSensor : Sensor :=
  {| sharedState := initialSharedState 1700000000000;
     currentNose := Some {| Point.x := 0.5; Point.y := 0.4 |};
     isClosed := false |}.

(** The hands a results object carries; none when the field is missing. *)
Definition handsOf (multiHandLandmarks : option (list Landmarks)) : list Landmarks :=
  match multiHandLandmarks with
  | Some hands => hands
  | None => []
  end.

(** The last element of a list that satisfies a test. *)
Definition findLast {A} (test : A -> bool) (l : list A) : option A :=
  find test (List.rev l).


(** A landmark array mirrored left to right, as a mirrored camera picture
    shows it. *)
Definition mirrored (points : Landmarks) : Landmarks :=
  fun i => {| Point.x := 1 - Point.x (points i); Point.y := Point.y (points i) |}.


(** [n] frames taken before anything was detected. *)
Definition unseenFrames (n : nat) : list FrameData :=
  repeat {| timestamp := 1700000000000;
            eye_ratio := 0.02;
            landmarks := initialSharedState 1700000000000 |} n.

Definition frownChallenge : Challenge :=
  {| id := lit "K3X9Q"; gesture := left_hand_up; expression := frown;
     expiresAt := 1700000045000 |}.

(* ================================================================== *)
(** ** Numbers: comparisons, [Math.min], [Math.round] *)
(* ================================================================== *)

Section Numbers.

Implicit Types x y z : number.

Lemma num_ge_true_iff x y : num_ge x y = true <-> y <= x.
Proof. unfold num_ge. apply Qle_bool_iff. Qed.

Lemma num_gt_true_iff x y : num_gt x y = true <-> y < x.
Proof.
  unfold num_gt. rewrite negb_true_iff.
  split; intro H.
  - apply Qnot_le_lt. intro Hle. apply Qle_bool_iff in Hle. congruence.
  - destruct (Qle_bool x y) eqn:E; [| reflexivity].
    apply Qle_bool_iff in E. exfalso. exact (Qlt_not_le _ _ H E).
Qed.

Lemma num_lt_true_iff x y : num_lt x y = true <-> x < y.
Proof. unfold num_lt. apply (num_gt_true_iff y x). Qed.

Lemma num_gt_false_iff x y : num_gt x y = false <-> x <= y.
Proof.
  unfold num_gt. rewrite negb_false_iff. apply Qle_bool_iff.
Qed.

Lemma Math_min_spec x y :
  (x <= y /\ Math_min x y = x) \/ (y < x /\ Math_min x y = y).
Proof.
  unfold Math_min. destruct (Qle_bool x y) eqn:E.
  - left. split; [now apply Qle_bool_iff | reflexivity].
  - right. split; [| reflexivity].
    apply Qnot_le_lt. intro H. apply Qle_bool_iff in H. congruence.
Qed.

Lemma Math_min_Qmin x y : Math_min x y == Qmin x y.
Proof.
  destruct (Math_min_spec x y) as [[H ->] | [H ->]].
  - symmetry. now apply Q.min_l.
  - symmetry. apply Q.min_r. now apply Qlt_le_weak.
Qed.

Lemma Math_min_le_r x y : Math_min x y <= y.
Proof.
  destruct (Math_min_spec x y) as [[H ->] | [H ->]]; [exact H | apply Qle_refl].
Qed.

Lemma Math_min_glb x y z : z <= x -> z <= y -> z <= Math_min x y.
Proof.
  intros Hx Hy.
  destruct (Math_min_spec x y) as [[_ ->] | [_ ->]]; assumption.
Qed.

Lemma Math_min_monotone x x' y : x <= x' -> Math_min x y <= Math_min x' y.
Proof.
  intro H. apply Math_min_glb.
  - destruct (Math_min_spec x y) as [[_ ->] | [Hlt ->]]; [exact H |].
    apply Qlt_le_weak. eapply Qlt_le_trans; eauto.
  - apply Math_min_le_r.
Qed.

(** [Math.round x] is the integer [k] with [k - 1/2 <= x < k + 1/2]. *)
Lemma Math_round_nearest x :
  inject_Z (Math_round x) - (1 # 2) <= x /\ x < inject_Z (Math_round x) + (1 # 2).
Proof.
  unfold Math_round.
  pose proof (Qfloor_le (x + (1 # 2))) as Hlo.
  pose proof (Qlt_floor (x + (1 # 2))) as Hhi.
  rewrite inject_Z_plus in Hhi. change (inject_Z 1) with 1 in Hhi.
  split; lra.
Qed.

Lemma Math_round_between x (lo hi : Z) :
  inject_Z lo <= x -> x <= inject_Z hi -> (lo <= Math_round x <= hi)%Z.
Proof.
  intros Hlo Hhi. unfold Math_round. split.
  - rewrite <- (Qfloor_Z lo). apply Qfloor_resp_le. lra.
  - assert (H : (Qfloor (x + (1 # 2)) < hi + 1)%Z).
    { rewrite Zlt_Qlt. eapply Qle_lt_trans; [apply Qfloor_le |].
      rewrite inject_Z_plus. change (inject_Z 1) with 1. lra. }
    lia.
Qed.

End Numbers.

(* ================================================================== *)
(** ** The counting loop *)
(* ================================================================== *)

Section Counting.

Variable rev : Revision.
Variable challenge : Challenge.

Lemma passingFrames_cons p f frames :
  passingFrames p (f :: frames)
  = ((if p f then 1 else 0) + passingFrames p frames)%nat.
Proof. unfold passingFrames. simpl. now destruct (p f). Qed.

Lemma passingFrames_le_length p frames :
  (passingFrames p frames <= List.length frames)%nat.
Proof. unfold passingFrames. apply filter_length_le. Qed.

(** The loop invariant: each counter has grown by the number of frames
    seen so far that satisfy its predicate. *)
Lemma countFrame_fold frames : forall g e,
  fold_left (countFrame rev challenge) frames (g, e)
  = ((g + Z.of_nat (passingFrames (gesturePassing rev challenge) frames))%Z,
     (e + Z.of_nat (passingFrames (expressionPassing rev challenge) frames))%Z).
Proof.
  induction frames as [| f frames IH]; intros g e.
  - simpl. now rewrite !Z.add_0_r.
  - cbn [fold_left]. unfold countFrame at 2. rewrite IH.
    rewrite !passingFrames_cons. unfold gesturePassing, expressionPassing.
    destruct (gestureDetected _ _ _), (expressionDetected _ _ _);
      f_equal; lia.
Qed.

Lemma countFrames_spec frames :
  countFrames rev challenge frames
  = (Z.of_nat (passingFrames (gesturePassing rev challenge) frames),
     Z.of_nat (passingFrames (expressionPassing rev challenge) frames)).
Proof. unfold countFrames. now rewrite countFrame_fold. Qed.

End Counting.

(* ================================================================== *)
(** ** [calculateVariance] against the population variance *)
(* ================================================================== *)

Section Variance.

Lemma fold_left_Qplus l : forall a, fold_left Qplus l a == a + Qsum l.
Proof.
  induction l as [| x l IH]; intro a; simpl.
  - ring.
  - rewrite IH. ring.
Qed.

Lemma fold_left_deviations mean l : forall a,
  fold_left (fun a b => a + Math_pow2 (b - mean)) l a
  == a + Qsum (map (fun x => (x - mean) * (x - mean)) l).
Proof.
  induction l as [| x l IH]; intro a; simpl.
  - ring.
  - rewrite IH. unfold Math_pow2. ring.
Qed.

Lemma Qsum_deviations_compat m m' l :
  m == m' ->
  Qsum (map (fun x => (x - m) * (x - m)) l)
  == Qsum (map (fun x => (x - m') * (x - m')) l).
Proof.
  intro H. induction l as [| x l IH]; simpl.
  - reflexivity.
  - rewrite IH, H. reflexivity.
Qed.

Lemma calculateVariance_empty : calculateVariance [] = Thrown TypeError.
Proof. reflexivity. Qed.

(** On a non-empty series [calculateVariance] returns, and what it returns
    is the population variance. *)
Lemma calculateVariance_spec data :
  data <> [] ->
  exists v, calculateVariance data = Returned v /\ v == populationVariance data.
Proof.
  destruct data as [| x xs]; [congruence | intros _].
  unfold calculateVariance, reduce1, reduce, length_number.
  eexists. split; [reflexivity |].
  unfold populationVariance.
  set (n := inject_Z (Z.of_nat (List.length (x :: xs)))).
  rewrite fold_left_deviations.
  assert (Hmean : fold_left Qplus xs x / n == Qsum (x :: xs) / n).
  { rewrite fold_left_Qplus. reflexivity. }
  rewrite (Qsum_deviations_compat _ _ (x :: xs) Hmean).
  rewrite Qplus_0_l. reflexivity.
Qed.

Lemma calculateVariance_returns frames :
  (15 <= List.length frames)%nat ->
  exists v, calculateVariance (map eye_ratio frames) = Returned v
            /\ v == populationVariance (map eye_ratio frames).
Proof.
  intro H. apply calculateVariance_spec.
  destruct frames; simpl in *; [lia | congruence].
Qed.

End Variance.

(* ================================================================== *)
(** ** Token issuance: when [btoa] accepts its argument *)
(* ================================================================== *)

Section Tokens.

Lemma latin1b_true_iff s : latin1b s = true <-> latin1 s.
Proof.
  unfold latin1b, latin1. rewrite forallb_forall, Forall_forall.
  split; intros H u Hu; specialize (H u Hu); now apply N.leb_le.
Qed.

Lemma latin1b_app s t : latin1b (s ++ t) = latin1b s && latin1b t.
Proof. apply forallb_app. Qed.

Lemma latin1b_lit s : latin1b (lit s) = true.
Proof.
  apply latin1b_true_iff. unfold latin1, lit.
  apply Forall_forall. intros u Hu. apply in_map_iff in Hu.
  destruct Hu as [c [<- _]]. pose proof (N_ascii_bounded c). lia.
Qed.

Lemma hex_digit_small n : (n < 16 -> hex_digit n <= 255)%N.
Proof. unfold hex_digit. intro H. destruct (n <? 10)%N; lia. Qed.

Lemma latin1b_unicode_escape u : latin1b (unicode_escape u) = true.
Proof.
  apply latin1b_true_iff. unfold unicode_escape, latin1.
  repeat constructor; try lia;
    apply hex_digit_small; apply N.mod_lt; discriminate.
Qed.

Lemma latin1b_quote_unit u : (u <= 255)%N -> latin1b (quote_unit u) = true.
Proof.
  intro H. unfold quote_unit.
  repeat match goal with
         | |- context [if ?b then _ else _] => destruct b
         end;
    try reflexivity; try apply latin1b_unicode_escape.
  simpl. apply N.leb_le in H. now rewrite H.
Qed.

Lemma small_not_high_surrogate u : (u <= 255)%N -> is_high_surrogate u = false.
Proof.
  intro H. unfold is_high_surrogate.
  apply andb_false_iff. left. apply N.leb_gt. lia.
Qed.

Lemma latin1b_quote_body s : latin1 s -> latin1b (quote_body s) = true.
Proof.
  induction 1 as [| u s Hu _ IH]; [reflexivity |].
  cbn [quote_body]. rewrite (small_not_high_surrogate u Hu).
  rewrite latin1b_app, IH, (latin1b_quote_unit u Hu). reflexivity.
Qed.

Lemma latin1b_JSON_string s : latin1 s -> latin1b (JSON_string s) = true.
Proof.
  intro H. unfold JSON_string.
  rewrite !latin1b_app, (latin1b_quote_body s H). reflexivity.
Qed.

Lemma latin1b_JSON_members fields :
  Forall (fun kv => latin1b (snd kv) = true) fields ->
  latin1b (JSON_members fields) = true.
Proof.
  induction 1 as [| [k v] rest Hv _ IH]; [reflexivity |].
  simpl in Hv. cbn [JSON_members].
  assert (Hk : latin1b (JSON_string (lit k)) = true).
  { apply latin1b_JSON_string, latin1b_true_iff, latin1b_lit. }
  destruct rest as [| kv rest].
  - rewrite !latin1b_app, Hk, Hv, latin1b_lit. reflexivity.
  - rewrite !latin1b_app, Hk, Hv, IH, !latin1b_lit. reflexivity.
Qed.

Lemma latin1b_JSON_object fields :
  Forall (fun kv => latin1b (snd kv) = true) fields ->
  latin1b (JSON_object fields) = true.
Proof.
  intro H. unfold JSON_object.
  rewrite !latin1b_app, (latin1b_JSON_members fields H), !latin1b_lit.
  reflexivity.
Qed.

Lemma btoa_latin1 s : latin1b s = true -> btoa s = Returned (base64 s).
Proof. unfold btoa. now intros ->. Qed.

Lemma btoa_not_latin1 s : latin1b s = false -> btoa s = Thrown InvalidCharacterError.
Proof. unfold btoa. now intros ->. Qed.

(** With an identifier made of code units up to 0xFF, both revisions of
    [generateToken] return. *)
Lemma generateToken_returns rev challengeId w :
  latin1 challengeId ->
  exists t w', generateToken rev challengeId w = (Returned t, w').
Proof.
  intro Hid. destruct rev; unfold generateToken, bind, lift, Date_now,
    Math_random, ret.
  - rewrite btoa_latin1.
    2:{ apply latin1b_JSON_object.
        repeat constructor; apply latin1b_JSON_string, latin1b_true_iff,
          latin1b_lit. }
    rewrite btoa_latin1.
    2:{ apply latin1b_JSON_object.
        repeat constructor; cbn [snd];
          first [ apply latin1b_JSON_string; first
                    [ exact Hid | apply latin1b_true_iff, latin1b_lit ]
                | apply latin1b_lit ]. }
    eauto.
  - rewrite btoa_latin1 by now apply latin1b_true_iff.
    rewrite btoa_latin1 by apply latin1b_lit.
    eauto.
Qed.

End Tokens.

(* ================================================================== *)
(** ** The structure of [verify] *)
(* ================================================================== *)

Section Verify.

Variable rev : Revision.
Variable challenge : Challenge.
Variable frames : list FrameData.
Variable w : World.

Lemma verify_expired :
  expiresAt challenge < currentTime w ->
  verify rev challenge frames w = (Returned timeoutResult, afterClockRead w).
Proof.
  intro H. unfold verify, bind, Date_now.
  apply num_gt_true_iff in H. unfold currentTime in H. now rewrite H.
Qed.

Lemma verify_sparse :
  currentTime w <= expiresAt challenge ->
  (List.length frames < 15)%nat ->
  verify rev challenge frames w = (Returned densityResult, afterClockRead w).
Proof.
  intros H Hlen. unfold verify, bind, Date_now.
  apply num_gt_false_iff in H. unfold currentTime in H. rewrite H.
  apply Nat.ltb_lt in Hlen. now rewrite Hlen.
Qed.

Lemma verify_dense :
  currentTime w <= expiresAt challenge ->
  (15 <= List.length frames)%nat ->
  verify rev challenge frames w = evaluate rev challenge frames (afterClockRead w).
Proof.
  intros H Hlen. unfold verify, bind, Date_now.
  apply num_gt_false_iff in H. unfold currentTime in H. rewrite H.
  apply Nat.ltb_ge in Hlen. now rewrite Hlen.
Qed.

(** [verify] leaves through exactly one of three doors. *)
Lemma verify_cases :
  (expiresAt challenge < currentTime w
   /\ verify rev challenge frames w = (Returned timeoutResult, afterClockRead w))
  \/ (currentTime w <= expiresAt challenge /\ (List.length frames < 15)%nat
      /\ verify rev challenge frames w = (Returned densityResult, afterClockRead w))
  \/ (currentTime w <= expiresAt challenge /\ (15 <= List.length frames)%nat
      /\ verify rev challenge frames w
         = evaluate rev challenge frames (afterClockRead w)).
Proof.
  destruct (Qlt_le_dec (expiresAt challenge) (currentTime w)) as [Hexp | Hlive].
  - left. split; [exact Hexp | now apply verify_expired].
  - destruct (Nat.lt_ge_cases (List.length frames) 15) as [Hfew | Hmany].
    + right; left. repeat split; try assumption. now apply verify_sparse.
    + right; right. repeat split; try assumption. now apply verify_dense.
Qed.

(** Everything a result of the full evaluation is made of. *)
Lemma evaluate_inversion (w0 : World) r w' :
  evaluate rev challenge frames w0 = (Returned r, w') ->
  exists variance,
    calculateVariance (map eye_ratio frames) = Returned variance /\
    let gestureRatio := frameRatio (gesturePassing rev challenge) frames in
    let expressionRatio := frameRatio (expressionPassing rev challenge) frames in
    let gesturePassed := factorPassed rev gestureRatio in
    let expressionPassed := factorPassed rev expressionRatio in
    let livenessPassed := isHumanNoiseDetected rev variance in
    success r = gesturePassed && expressionPassed && livenessPassed /\
    score r = inject_Z (displayScore gestureRatio expressionRatio livenessPassed) /\
    reasons r =
      [gestureReason rev (gesture challenge) gesturePassed gestureRatio;
       expressionReason rev (expression challenge) expressionPassed expressionRatio;
       livenessReason rev livenessPassed]
      ++ summaryReason rev (success r) /\
    (if success r then exists t, token r = Some t else token r = None).
Proof.
  unfold evaluate. rewrite countFrames_spec. cbv beta iota.
  unfold bind at 1. unfold lift.
  destruct (calculateVariance (map eye_ratio frames)) as [variance | e];
    [| discriminate].
  intro H. exists variance. split; [reflexivity |].
  unfold passRatio, length_number in H. fold (frameRatio (gesturePassing rev challenge) frames) in H.
  fold (frameRatio (expressionPassing rev challenge) frames) in H.
  cbv zeta.
  destruct (factorPassed rev (frameRatio (gesturePassing rev challenge) frames)
            && factorPassed rev (frameRatio (expressionPassing rev challenge) frames)
            && isHumanNoiseDetected rev variance) eqn:Hs.
  - unfold bind, ret in H.
    destruct (generateToken rev (id challenge) w0) as [[t | e] w1];
      [| discriminate].
    injection H as <- _. cbn [success score reasons token].
    repeat split; eauto.
  - unfold bind, ret in H. injection H as <- _.
    cbn [success score reasons token]. repeat split; eauto.
Qed.


Lemma evaluate_returns (w0 : World) :
  (15 <= List.length frames)%nat ->
  latin1 (id challenge) ->
  exists r w', evaluate rev challenge frames w0 = (Returned r, w').
Proof.
  intros Hlen Hid.
  destruct (calculateVariance_returns frames Hlen) as [variance [Hv _]].
  unfold evaluate. destruct (countFrames rev challenge frames) as [g e].
  unfold bind at 1. unfold lift. rewrite Hv.
  destruct (factorPassed rev (passRatio g (length_number frames))
            && factorPassed rev (passRatio e (length_number frames))
            && isHumanNoiseDetected rev variance).
  - unfold bind at 1.
    destruct (generateToken_returns rev (id challenge) w0 Hid) as [t [w1 Ht]].
    unfold bind at 1. rewrite Ht. unfold ret. eauto.
  - unfold bind, ret. eauto.
Qed.

(** [verify] returns whenever the identifier fits [btoa]. *)
Lemma verify_returns :
  latin1 (id challenge) ->
  exists r w', verify rev challenge frames w = (Returned r, w').
Proof.
  intro Hid.
  destruct verify_cases as [[_ ->] | [[_ [_ ->]] | [_ [Hmany ->]]]]; eauto.
  now apply evaluate_returns.
Qed.

End Verify.

(** Case analysis on the door through which a returned result left
    [verify]: the equation [H] is rewritten to the guard's fixed result or
    to the call of [evaluate]. *)
Ltac verify_doors H :=
  match type of H with
  | verify ?rev ?challenge ?frames ?w = _ =>
      let Hexp := fresh "Hexpired" in
      let Hlive := fresh "Hlive" in
      let Hfew := fresh "Hfew" in
      let Hmany := fresh "Hmany" in
      let E := fresh "E" in
      destruct (verify_cases rev challenge frames w)
        as [[Hexp E] | [[Hlive [Hfew E]] | [Hlive [Hmany E]]]];
      rewrite E in H; clear E
  end.

(* ================================================================== *)
(** ** Properties of the specification *)
(* ================================================================== *)

(** C3.  When the clock reading exceeds [challenge.expiresAt], [verify]
    returns [success = false], [score = 0], the single timeout reason and
    no token, whatever the frames are; nothing but the one clock reading
    has happened by then. *)
Theorem verify_expired_short_circuits rev challenge frames w :
  expiresAt challenge < currentTime w ->
  verify rev challenge frames w
  = (Returned {| success := false; score := 0; token := None;
                 reasons := ["Protocol timeout: session expired"%string] |},
     afterClockRead w).
Proof.
  intro Hexpired.
  unfold verify, bind, Date_now, ret.
  (* the guard compares the reading just taken with the deadline *)
  assert (Hguard : num_gt (inject_Z (clock w (ticks w))) (expiresAt challenge)
                   = true)
    by (apply num_gt_true_iff; exact Hexpired).
  rewrite Hguard. reflexivity.
Qed.

Lemma verify_expired_short_circuits_witness :
  expiresAt expiredChallenge < currentTime sampleWorld
  /\ verify Lenient expiredChallenge [] sampleWorld
     = (Returned {| success := false; score := 0; token := None;
                    reasons := ["Protocol timeout: session expired"%string] |},
        afterClockRead sampleWorld).
Proof.
  split; [reflexivity |].
  apply (verify_expired_short_circuits Lenient expiredChallenge [] sampleWorld).
  reflexivity.
Defined.

(** C4.  For a challenge that has not expired and fewer than 15 frames,
    [verify] returns [success = false], [score = 0], the single
    insufficient-data reason and no token, whatever the challenge asks
    for. *)
Theorem verify_sparse_stream_rejected rev challenge frames w :
  currentTime w <= expiresAt challenge ->
  (List.length frames < 15)%nat ->
  verify rev challenge frames w
  = (Returned {| success := false; score := 0; token := None;
                 reasons :=
                   ["Data density failure: insufficient biometric stream"%string] |},
     afterClockRead w).
Proof.
  intros Hlive Hfew.
  unfold verify, bind, Date_now, ret.
  assert (Hguard : num_gt (inject_Z (clock w (ticks w))) (expiresAt challenge)
                   = false)
    by (apply num_gt_false_iff; exact Hlive).
  assert (Hdensity : (List.length frames <? 15)%nat = true)
    by (apply Nat.ltb_lt; exact Hfew).
  rewrite Hguard, Hdensity. reflexivity.
Qed.

Lemma verify_sparse_stream_rejected_witness :
  currentTime sampleWorld <= expiresAt sampleChallenge
  /\ (List.length (blinkingFrames 5) < 15)%nat
  /\ verify Strict sampleChallenge (blinkingFrames 5) sampleWorld
     = (Returned {| success := false; score := 0; token := None;
                    reasons :=
                      ["Data density failure: insufficient biometric stream"%string] |},
        afterClockRead sampleWorld).
Proof.
  assert (Hlive : currentTime sampleWorld <= expiresAt sampleChallenge)
    by (vm_compute; discriminate).
  assert (Hfew : (List.length (blinkingFrames 5) < 15)%nat) by (simpl; lia).
  split; [exact Hlive | split; [exact Hfew |]].
  exact (verify_sparse_stream_rejected Strict sampleChallenge (blinkingFrames 5)
           sampleWorld Hlive Hfew).
Defined.

(** C2.  A result of [verify] carries a token exactly when [success] is
    true; every failing result has no token. *)
Theorem token_present_iff_success rev challenge frames w r w' :
  verify rev challenge frames w = (Returned r, w') ->
  ((exists t, token r = Some t) <-> success r = true)
  /\ (success r = false -> token r = None).
Proof.
  intro H.
  assert (Hshape : if success r then exists t, token r = Some t
                   else token r = None).
  { verify_doors H.
    - injection H as <- _. reflexivity.
    - injection H as <- _. reflexivity.
    - destruct (evaluate_inversion _ _ _ _ _ _ H) as [v [_ [_ [_ [_ Ht]]]]].
      exact Ht. }
  destruct (success r).
  - split; [tauto | discriminate].
  - rewrite Hshape. split; [| reflexivity].
    split; [intros [t Ht]; discriminate | discriminate].
Qed.

Lemma token_present_iff_success_witness :
  exists r w',
    verify Strict sampleChallenge (blinkingFrames 8) sampleWorld = (Returned r, w')
    /\ success r = true
    /\ ((exists t, token r = Some t) <-> success r = true)
    /\ (success r = false -> token r = None).
Proof.
  eexists. eexists.
  assert (H : verify Strict sampleChallenge (blinkingFrames 8) sampleWorld
              = (Returned _, _)) by (vm_compute; reflexivity).
  split; [exact H | split; [reflexivity |]].
  exact (token_present_iff_success _ _ _ _ _ _ H).
Defined.

Lemma factorPassed_true_iff rev ratio :
  factorPassed rev ratio = true <-> MIN_PASS_RATIO rev <= ratio.
Proof. apply num_ge_true_iff. Qed.





Section Score.

Lemma frameRatio_nonneg p frames : 0 <= frameRatio p frames.
Proof.
  unfold frameRatio, Qdiv.
  apply Qmult_le_0_compat.
  - change 0 with (inject_Z 0). rewrite <- Zle_Qle. lia.
  - apply Qinv_le_0_compat.
    change 0 with (inject_Z 0). rewrite <- Zle_Qle. lia.
Qed.

Lemma ratioPoints_range ratio : 0 <= ratio -> 0 <= ratioPoints ratio <= 40.
Proof.
  intro H. unfold ratioPoints.
  assert (Hlo : 0 <= Math_min (ratio / 0.4) 1).
  { apply Math_min_glb; [| lra].
    unfold Qdiv. apply Qmult_le_0_compat; [exact H | vm_compute; discriminate]. }
  pose proof (Math_min_le_r (ratio / 0.4) 1) as Hhi.
  split; lra.
Qed.

Lemma livenessPoints_range b : 0 <= livenessPoints b <= 20.
Proof. destruct b; cbn; lra. Qed.


End Score.



Section Reasons.

Lemma gestureReason_kind rev g passed ratio :
  isFailureLine (gestureReason rev g passed ratio) = negb passed.
Proof. destruct rev, passed; reflexivity. Qed.

Lemma expressionReason_kind rev e passed ratio :
  isFailureLine (expressionReason rev e passed ratio) = negb passed.
Proof. destruct rev, passed; reflexivity. Qed.




End Reasons.




(** C7.  With the frame count fixed, a larger [gesturePassCount] gives a
    gesture ratio that is no smaller, a gesture term of the score that is
    no smaller, and keeps a passing gesture factor passing. *)
Theorem gesture_count_monotone rev (frameCount : nat) (count1 count2 : Z) :
  (0 < frameCount)%nat ->
  (count1 <= count2)%Z ->
  let total := inject_Z (Z.of_nat frameCount) in
  passRatio count1 total <= passRatio count2 total
  /\ Math_min (passRatio count1 total / 0.4) 1 * 40
     <= Math_min (passRatio count2 total / 0.4) 1 * 40
  /\ (MIN_PASS_RATIO rev <= passRatio count1 total ->
      MIN_PASS_RATIO rev <= passRatio count2 total)
  /\ (factorPassed rev (passRatio count1 total) = true ->
      factorPassed rev (passRatio count2 total) = true).
Proof.
  intros Hn Hc total.
  assert (Htotal : 0 < total).
  { unfold total. change 0 with (inject_Z 0). rewrite <- Zlt_Qlt. lia. }
  assert (Hratio : passRatio count1 total <= passRatio count2 total).
  { unfold passRatio, Qdiv. apply Qmult_le_compat_r.
    - rewrite <- Zle_Qle. exact Hc.
    - apply Qlt_le_weak, Qinv_lt_0_compat, Htotal. }
  split; [exact Hratio |].
  split.
  - apply Qmult_le_compat_r; [| vm_compute; discriminate].
    apply Math_min_monotone. unfold Qdiv.
    apply Qmult_le_compat_r; [exact Hratio | vm_compute; discriminate].
  - split.
    + intro H. eapply Qle_trans; eauto.
    + rewrite !factorPassed_true_iff. intro H. eapply Qle_trans; eauto.
Qed.

Lemma gesture_count_monotone_witness :
  (0 < 20)%nat /\ (3 <= 4)%Z
  /\ passRatio 3 (inject_Z (Z.of_nat 20)) <= passRatio 4 (inject_Z (Z.of_nat 20))
  /\ Math_min (passRatio 3 (inject_Z (Z.of_nat 20)) / 0.4) 1 * 40
     <= Math_min (passRatio 4 (inject_Z (Z.of_nat 20)) / 0.4) 1 * 40
  /\ (MIN_PASS_RATIO Lenient <= passRatio 3 (inject_Z (Z.of_nat 20)) ->
      MIN_PASS_RATIO Lenient <= passRatio 4 (inject_Z (Z.of_nat 20)))
  /\ (factorPassed Lenient (passRatio 3 (inject_Z (Z.of_nat 20))) = true ->
      factorPassed Lenient (passRatio 4 (inject_Z (Z.of_nat 20))) = true).
Proof.
  assert (Hn : (0 < 20)%nat) by lia.
  assert (Hc : (3 <= 4)%Z) by lia.
  split; [exact Hn | split; [exact Hc |]].
  exact (gesture_count_monotone Lenient 20 3 4 Hn Hc).
Defined.

Section ChallengeGeneration.

Lemma unit_fraction_range seed : 0 <= unit_fraction seed < 1.
Proof.
  unfold unit_fraction, Qle, Qlt. cbn [Qnum Qden].
  assert (H : (seed mod 2 ^ 53 < 2 ^ 53)%N) by (apply N.mod_lt; discriminate).
  apply N2Z.inj_lt in H.
  change (Z.of_N (2 ^ 53)) with (Z.pos (2 ^ 53)) in H.
  pose proof (N2Z.is_nonneg (seed mod 2 ^ 53)).
  split; lia.
Qed.



End ChallengeGeneration.


Lemma generateChallenge_id_latin1 (Number_toString36 : number -> string) w challenge w' :
  generateChallenge Number_toString36 w = (Returned challenge, w') ->
  latin1 (id challenge).
Proof.
  intro H. injection H as <- _. cbn [id].
  apply latin1b_true_iff, latin1b_lit.
Qed.

Lemma verify_reasons_nonempty rev challenge frames w r w' :
  verify rev challenge frames w = (Returned r, w') -> reasons r <> [].
Proof.
  intro H. verify_doors H.
  - injection H as <- _. discriminate.
  - injection H as <- _. discriminate.
  - destruct (evaluate_inversion _ _ _ _ _ _ H) as [v [_ [_ [_ [Hr _]]]]].
    rewrite Hr. discriminate.
Qed.

(** C8, as the code has it.  For a challenge whose identifier consists of
    code units up to 0xFF (every identifier [generateChallenge] produces is
    such), [verify] returns a result for every frame sequence, the empty
    one included, and every result carries at least one reason.  The
    variance computation throws on an empty series, and [verify] runs it
    only on 15 or more values: with fewer frames it returns from one of the
    two guards, whatever the identifier is. *)
Theorem verify_returns_for_byte_identifiers rev challenge frames w :
  latin1 (id challenge) ->
  (exists r w', verify rev challenge frames w = (Returned r, w')
                /\ reasons r <> [])
  /\ calculateVariance [] = Thrown TypeError
  /\ (forall anyChallenge,
        (List.length frames < 15)%nat ->
        exists r, verify rev anyChallenge frames w = (Returned r, afterClockRead w)
                  /\ success r = false)
  /\ ((15 <= List.length frames)%nat ->
      exists v, calculateVariance (map eye_ratio frames) = Returned v)
  /\ (forall Number_toString36 w0 generated w0',
        generateChallenge Number_toString36 w0 = (Returned generated, w0') ->
        latin1 (id generated)).
Proof.
  intro Hid. split; [| split; [| split; [| split]]].
  - destruct (verify_returns rev challenge frames w Hid) as [r [w' H]].
    exists r, w'. split; [exact H |].
    exact (verify_reasons_nonempty _ _ _ _ _ _ H).
  - apply calculateVariance_empty.
  - intros anyChallenge Hfew.
    destruct (Qlt_le_dec (expiresAt anyChallenge) (currentTime w)) as [Hexp | Hlive].
    + rewrite (verify_expired rev anyChallenge frames w Hexp). eauto.
    + rewrite (verify_sparse rev anyChallenge frames w Hlive Hfew). eauto.
  - intro Hmany.
    destruct (calculateVariance_returns frames Hmany) as [v [Hv _]]. eauto.
  - apply generateChallenge_id_latin1.
Qed.

Lemma verify_returns_for_byte_identifiers_witness :
  latin1 (id sampleChallenge)
  /\ exists r w',
       verify Lenient sampleChallenge [] sampleWorld = (Returned r, w')
       /\ reasons r <> [].
Proof.
  assert (Hid : latin1 (id sampleChallenge))
    by (apply latin1b_true_iff; reflexivity).
  split; [exact Hid |].
  exact (proj1 (verify_returns_for_byte_identifiers Lenient sampleChallenge []
                  sampleWorld Hid)).
Defined.

(** C8, as the claim words it, fails: with the euro sign as identifier and
    frames that pass all three factors, token issuance throws, in either
    revision. *)
Lemma verify_throws_on_wide_identifier :
  fst (verify Strict euroChallenge (blinkingFrames 8) sampleWorld)
  = Thrown InvalidCharacterError
  /\ fst (verify Lenient euroChallenge (blinkingFrames 8) sampleWorld)
     = Thrown InvalidCharacterError.
Proof. split; vm_compute; reflexivity. Qed.

(** C10.  A frame whose [hand_nose_dist] is the sentinel -1 satisfies the
    touch-nose predicate and increments [gesturePassCount] of a touch-nose
    challenge, in both revisions; the two raised-hand predicates reject a
    hand position of -1 through their [> 0] guard. *)
Theorem sentinel_counts_as_nose_touch rev challenge f gesturePassCount expressionPassCount :
  gesture challenge = touch_nose ->
  LandmarkData.hand_nose_dist (landmarks f) == -1 ->
  gestureDetected rev touch_nose (landmarks f) = true
  /\ fst (countFrame rev challenge (gesturePassCount, expressionPassCount) f)
     = (gesturePassCount + 1)%Z
  /\ (forall l, LandmarkData.left_hand_y l == -1 ->
                gestureDetected rev left_hand_up l = false)
  /\ (forall l, LandmarkData.right_hand_y l == -1 ->
                gestureDetected rev right_hand_up l = false).
Proof.
  intros Hg Hd.
  assert (Hnose : gestureDetected rev touch_nose (landmarks f) = true).
  { cbn [gestureDetected]. apply num_lt_true_iff. rewrite Hd.
    destruct rev; reflexivity. }
  split; [exact Hnose | split; [| split]].
  - unfold countFrame. rewrite Hg, Hnose. reflexivity.
  - intros l Hl. cbn [gestureDetected]. apply andb_false_iff. left.
    apply num_gt_false_iff. rewrite Hl. discriminate.
  - intros l Hl. cbn [gestureDetected]. apply andb_false_iff. left.
    apply num_gt_false_iff. rewrite Hl. discriminate.
Qed.

Lemma sentinel_counts_as_nose_touch_witness :
  gesture sampleChallenge = touch_nose
  /\ LandmarkData.hand_nose_dist (landmarks (sampleFrame (-1) 0.010)) == -1
  /\ gestureDetected Strict touch_nose (landmarks (sampleFrame (-1) 0.010)) = true
  /\ fst (countFrame Strict sampleChallenge (7%Z, 2%Z) (sampleFrame (-1) 0.010))
     = 8%Z.
Proof.
  assert (Hg : gesture sampleChallenge = touch_nose) by reflexivity.
  assert (Hd : LandmarkData.hand_nose_dist (landmarks (sampleFrame (-1) 0.010))
               == -1) by reflexivity.
  split; [exact Hg | split; [exact Hd |]].
  destruct (sentinel_counts_as_nose_touch Strict sampleChallenge
              (sampleFrame (-1) 0.010) 7 2 Hg Hd) as [H1 [H2 _]].
  split; [exact H1 | exact H2].
Defined.


(* ================================================================== *)
(** ** The scenarios of the specification, run on both revisions *)
(* ================================================================== *)

(** Scenario A: hand at the nose on all 20 frames, eye ratio alternating
    between 0.008 and 0.014. *)
Example scenario_A rev :
  exists r w' t,
    verify rev sampleChallenge (blinkingFrames 10) sampleWorld = (Returned r, w')
    /\ success r = true /\ score r = 100 /\ token r = Some t.
Proof.
  destruct rev; do 3 eexists;
    (split; [vm_compute; reflexivity | repeat split]).
Qed.

(** Scenario B: the same challenge with the eye ratio frozen at 0.010. *)
Example scenario_B rev :
  exists r w',
    verify rev sampleChallenge (frozenFrames 20) sampleWorld = (Returned r, w')
    /\ success r = false /\ score r = 80 /\ token r = None
    /\ option_map isFailureLine (nth_error (reasons r) 0) = Some false
    /\ option_map isFailureLine (nth_error (reasons r) 1) = Some false
    /\ option_map isFailureLine (nth_error (reasons r) 2) = Some true.
Proof.
  destruct rev; do 2 eexists;
    (split; [vm_compute; reflexivity | repeat split]).
Qed.

(** Scenario C: ten frames only. *)
Example scenario_C rev :
  verify rev raisedHandChallenge (blinkingFrames 5) sampleWorld
  = (Returned densityResult, afterClockRead sampleWorld).
Proof. destruct rev; vm_compute; reflexivity. Qed.

(** Scenario D: the deadline lies in the past. *)
Example scenario_D rev :
  verify rev expiredChallenge (blinkingFrames 10) sampleWorld
  = (Returned timeoutResult, afterClockRead sampleWorld).
Proof. destruct rev; vm_compute; reflexivity. Qed.
(* ================================================================== *)
(** ** Further properties: the liveness statistic *)
(* ================================================================== *)

Section VarianceFacts.


Lemma square_nonneg (x : Q) : 0 <= x * x.
Proof.
  destruct (Qlt_le_dec x 0) as [Hneg | Hpos].
  - setoid_replace (x * x) with ((- x) * (- x)) by ring.
    apply Qmult_le_0_compat; lra.
  - now apply Qmult_le_0_compat.
Qed.





End VarianceFacts.




(* ================================================================== *)
(** ** Further properties: what [verify] reads of its frames *)
(* ================================================================== *)

Section FrameDependence.

Variable rev : Revision.
Variable challenge : Challenge.


(** The frames reach the result through four quantities only: their
    number, the two pass counts and the liveness verdict. *)
Lemma verify_depends_on frames1 frames2 w :
  List.length frames1 = List.length frames2 ->
  passingFrames (gesturePassing rev challenge) frames1
  = passingFrames (gesturePassing rev challenge) frames2 ->
  passingFrames (expressionPassing rev challenge) frames1
  = passingFrames (expressionPassing rev challenge) frames2 ->
  (forall v1 v2,
     calculateVariance (map eye_ratio frames1) = Returned v1 ->
     calculateVariance (map eye_ratio frames2) = Returned v2 ->
     isHumanNoiseDetected rev v1 = isHumanNoiseDetected rev v2) ->
  verify rev challenge frames1 w = verify rev challenge frames2 w.
Proof.
  intros Hlen Hg He Hlive.
  unfold verify, bind, Date_now.
  destruct (num_gt _ _); [reflexivity |].
  rewrite Hlen.
  destruct (List.length frames2 <? 15)%nat eqn:Hdense; [reflexivity |].
  apply Nat.ltb_ge in Hdense.
  assert (Hdense1 : (15 <= List.length frames1)%nat) by (rewrite Hlen; exact Hdense).
  destruct (calculateVariance_returns frames1 Hdense1) as [v1 [Hv1 _]].
  destruct (calculateVariance_returns frames2 Hdense) as [v2 [Hv2 _]].
  unfold evaluate. rewrite !countFrames_spec. cbv beta iota.
  unfold bind, lift. rewrite Hv1, Hv2.
  unfold length_number.
  rewrite Hlen, Hg, He, (Hlive v1 v2 Hv1 Hv2). reflexivity.
Qed.




Lemma gestureDetected_reads g l1 l2 :
  LandmarkData.left_hand_y l1 = LandmarkData.left_hand_y l2 ->
  LandmarkData.right_hand_y l1 = LandmarkData.right_hand_y l2 ->
  LandmarkData.shoulder_y l1 = LandmarkData.shoulder_y l2 ->
  LandmarkData.hand_nose_dist l1 = LandmarkData.hand_nose_dist l2 ->
  gestureDetected rev g l1 = gestureDetected rev g l2.
Proof.
  intros Hl Hr Hs Hd. destruct g; cbn [gestureDetected]; congruence.
Qed.

Lemma expressionDetected_reads e l1 l2 :
  LandmarkData.mouth_width l1 = LandmarkData.mouth_width l2 ->
  LandmarkData.brow_distance l1 = LandmarkData.brow_distance l2 ->
  LandmarkData.eye_ratio l1 = LandmarkData.eye_ratio l2 ->
  expressionDetected rev e l1 = expressionDetected rev e l2.
Proof.
  intros Hm Hb He. destruct e; cbn [expressionDetected]; congruence.
Qed.

Lemma sameReadings_counts frames1 frames2 :
  Forall2 sameReadings frames1 frames2 ->
  map eye_ratio frames1 = map eye_ratio frames2
  /\ passingFrames (gesturePassing rev challenge) frames1
     = passingFrames (gesturePassing rev challenge) frames2
  /\ passingFrames (expressionPassing rev challenge) frames1
     = passingFrames (expressionPassing rev challenge) frames2.
Proof.
  induction 1 as [| f g l1 l2 Hfg _ [IHm [IHg IHe]]]; [repeat split |].
  destruct Hfg as [Heye [Hl [Hr [Hs [Hm [Hb [Hd He]]]]]]].
  rewrite !passingFrames_cons. cbn [map].
  unfold gesturePassing at 1 3, expressionPassing at 1 3.
  rewrite (gestureDetected_reads _ _ _ Hl Hr Hs Hd),
    (expressionDetected_reads _ _ _ Hm Hb He), IHm, IHg, IHe, Heye.
  repeat split.
Qed.

End FrameDependence.



(** X4.  [verify] never reads a timestamp: frames that agree on [eye_ratio] and
    on the seven measurements of their landmarks give the same outcome,
    whatever their own and their landmarks' timestamps are. *)
Theorem verify_ignores_timestamps rev challenge frames1 frames2 w :
  Forall2 sameReadings frames1 frames2 ->
  verify rev challenge frames1 w = verify rev challenge frames2 w.
Proof.
  intro Hsame.
  destruct (sameReadings_counts rev challenge _ _ Hsame) as [Hm [Hg He]].
  apply verify_depends_on.
  - apply (Forall2_length Hsame).
  - exact Hg.
  - exact He.
  - intros v1 v2 Hv1 Hv2. rewrite Hm in Hv1. congruence.
Qed.

Lemma verify_ignores_timestamps_witness :
  Forall2 sameReadings (blinkingFrames 8) (map (restamp 0) (blinkingFrames 8))
  /\ verify Lenient sampleChallenge (blinkingFrames 8) sampleWorld
     = verify Lenient sampleChallenge (map (restamp 0) (blinkingFrames 8))
         sampleWorld.
Proof.
  assert (Hsame : Forall2 sameReadings (blinkingFrames 8)
                    (map (restamp 0) (blinkingFrames 8)))
    by (repeat constructor).
  split; [exact Hsame |].
  exact (verify_ignores_timestamps Lenient sampleChallenge _ _ sampleWorld Hsame).
Defined.

(* ================================================================== *)
(** ** Further properties: pass counts, ratios and the score *)
(* ================================================================== *)

Section Ratios.

Lemma frameRatio_le_1 p frames : frameRatio p frames <= 1.
Proof.
  unfold frameRatio.
  pose proof (passingFrames_le_length p frames) as Hle.
  destruct frames as [| f frames].
  - cbn. discriminate.
  - apply Qle_shift_div_r.
    + change 0 with (inject_Z 0). rewrite <- Zlt_Qlt. simpl. lia.
    + rewrite Qmult_1_l, <- Zle_Qle. lia.
Qed.

(** The pass test in whole numbers. *)
Lemma ratio_threshold_cross_multiply (num den : Z) (count total : Z) :
  (0 < den)%Z -> (0 < total)%Z ->
  ((num # Z.to_pos den) <= inject_Z count / inject_Z total
   <-> (num * total <= den * count)%Z).
Proof.
  intros Hden Htotal.
  assert (HtotalQ : 0 < inject_Z total)
    by (change 0 with (inject_Z 0); now rewrite <- Zlt_Qlt).
  split; intro H.
  - assert (H' : (num # Z.to_pos den) * inject_Z total <= inject_Z count).
    { assert (Hnz : ~ inject_Z total == 0)
        by (intro E; rewrite E in HtotalQ; discriminate).
      setoid_replace (inject_Z count)
        with (inject_Z count / inject_Z total * inject_Z total) at 1
        by (field; exact Hnz).
      apply Qmult_le_compat_r; [exact H | now apply Qlt_le_weak]. }
    unfold Qle, Qmult, inject_Z in H'. cbn [Qnum Qden] in H'.
    rewrite Pos.mul_1_r, Z2Pos.id in H' by exact Hden. lia.
  - apply Qle_shift_div_l; [exact HtotalQ |].
    unfold Qle, Qmult, inject_Z. cbn [Qnum Qden].
    rewrite Pos.mul_1_r, Z2Pos.id by exact Hden. lia.
Qed.

End Ratios.

(** X5.  Neither counter of the loop is ever negative or larger than the number
    of frames, so both ratios lie between 0 and 1. *)
Theorem pass_counts_within_frame_count rev challenge frames :
  let counters := countFrames rev challenge frames in
  (0 <= fst counters <= Z.of_nat (List.length frames))%Z
  /\ (0 <= snd counters <= Z.of_nat (List.length frames))%Z
  /\ 0 <= frameRatio (gesturePassing rev challenge) frames <= 1
  /\ 0 <= frameRatio (expressionPassing rev challenge) frames <= 1.
Proof.
  cbv zeta. rewrite countFrames_spec. cbn [fst snd].
  pose proof (passingFrames_le_length (gesturePassing rev challenge) frames).
  pose proof (passingFrames_le_length (expressionPassing rev challenge) frames).
  repeat split; try lia;
    first [apply frameRatio_nonneg | apply frameRatio_le_1].
Qed.

(** X6.  In whole numbers: with at least one frame, a factor passes in the 0.20
    revision exactly when five times its pass count reaches the frame
    count, and in the 0.15 revision exactly when twenty times its pass
    count reaches three times the frame count. *)
Theorem factor_passes_in_whole_numbers rev challenge frames :
  frames <> [] ->
  let counters := countFrames rev challenge frames in
  let total := Z.of_nat (List.length frames) in
  let enough (passCount : Z) :=
    match rev with
    | Strict => (total <= 5 * passCount)%Z
    | Lenient => (3 * total <= 20 * passCount)%Z
    end in
  (factorPassed rev (passRatio (fst counters) (length_number frames)) = true
   <-> enough (fst counters))
  /\ (factorPassed rev (passRatio (snd counters) (length_number frames)) = true
      <-> enough (snd counters)).
Proof.
  intros Hne counters total enough.
  assert (Htotal : (0 < total)%Z)
    by (unfold total; destruct frames; [congruence | simpl; lia]).
  unfold enough, passRatio, length_number. fold total.
  rewrite !factorPassed_true_iff.
  destruct rev.
  - change (MIN_PASS_RATIO Strict) with (20 # Z.to_pos 100).
    rewrite !ratio_threshold_cross_multiply by lia. lia.
  - change (MIN_PASS_RATIO Lenient) with (15 # Z.to_pos 100).
    rewrite !ratio_threshold_cross_multiply by lia. lia.
Qed.

Lemma factor_passes_in_whole_numbers_witness :
  blinkingFrames 8 <> []
  /\ (factorPassed Strict
        (passRatio (snd (countFrames Strict sampleChallenge (blinkingFrames 8)))
           (length_number (blinkingFrames 8))) = true
      <-> (Z.of_nat (List.length (blinkingFrames 8))
           <= 5 * snd (countFrames Strict sampleChallenge (blinkingFrames 8)))%Z).
Proof.
  assert (Hne : blinkingFrames 8 <> []) by discriminate.
  split; [exact Hne |].
  exact (proj2 (factor_passes_in_whole_numbers Strict sampleChallenge
                  (blinkingFrames 8) Hne)).
Defined.

Section ScoreFacts.



Lemma ratioPoints_at_least (bound ratio : Q) :
  bound <= 1 -> bound * 0.4 <= ratio -> bound * 40 <= ratioPoints ratio.
Proof.
  intros H1 H. unfold ratioPoints.
  apply Qmult_le_compat_r; [| discriminate].
  apply Math_min_glb; [| exact H1].
  apply Qle_shift_div_l; [reflexivity | exact H].
Qed.





End ScoreFacts.



(** X8.  A successful result scores at least 60 in the 0.20 revision and at
    least 50 in the 0.15 revision. *)
Theorem success_implies_minimum_score rev challenge frames w r w' :
  verify rev challenge frames w = (Returned r, w') ->
  success r = true ->
  match rev with Strict => 60 | Lenient => 50 end <= score r.
Proof.
  intros H Hsuccess. verify_doors H.
  - injection H as <- _. discriminate.
  - injection H as <- _. discriminate.
  - destruct (evaluate_inversion _ _ _ _ _ _ H) as [v [_ [Hs [Hscore _]]]].
    cbv zeta in Hs, Hscore.
    rewrite Hsuccess in Hs. symmetry in Hs.
    apply andb_true_iff in Hs. destruct Hs as [Hs Hl].
    apply andb_true_iff in Hs. destruct Hs as [Hg He].
    apply factorPassed_true_iff in Hg, He.
    rewrite Hscore, Hl. unfold displayScore, livenessPoints.
    set (gr := frameRatio (gesturePassing rev challenge) frames) in *.
    set (er := frameRatio (expressionPassing rev challenge) frames) in *.
    pose proof (ratioPoints_range gr (frameRatio_nonneg _ _)).
    pose proof (ratioPoints_range er (frameRatio_nonneg _ _)).
    destruct rev; cbn [MIN_PASS_RATIO] in Hg, He.
    + pose proof (ratioPoints_at_least (1 # 2) gr).
      pose proof (ratioPoints_at_least (1 # 2) er).
      change 60 with (inject_Z 60). rewrite <- Zle_Qle.
      apply (Math_round_between _ 60 100); unfold inject_Z; lra.
    + pose proof (ratioPoints_at_least (3 # 8) gr).
      pose proof (ratioPoints_at_least (3 # 8) er).
      change 50 with (inject_Z 50). rewrite <- Zle_Qle.
      apply (Math_round_between _ 50 100); unfold inject_Z; lra.
Qed.

Lemma success_implies_minimum_score_witness :
  exists r w',
    verify Strict sampleChallenge (blinkingFrames 8) sampleWorld = (Returned r, w')
    /\ success r = true /\ 60 <= score r.
Proof.
  eexists. eexists.
  assert (H : verify Strict sampleChallenge (blinkingFrames 8) sampleWorld
              = (Returned _, _)) by (vm_compute; reflexivity).
  split; [exact H | split; [reflexivity |]].
  exact (success_implies_minimum_score Strict _ _ _ _ _ H eq_refl).
Defined.



(* ================================================================== *)
(** ** Further properties: the token *)
(* ================================================================== *)

(** Arithmetic on the four six-bit groups of three bytes. *)
Ltac sextet := zify; Z.to_euclidean_division_equations; lia.

Section Base64.

Lemma base64_alphabet_checked :
  forallb (fun n => match base64_value (base64_char n) with
                    | Some m => (m =? n)%N
                    | None => false
                    end)
          (map N.of_nat (seq 0 64)) = true.
Proof. vm_compute. reflexivity. Qed.

Lemma base64_value_char n : (n < 64)%N -> base64_value (base64_char n) = Some n.
Proof.
  intro H.
  pose proof base64_alphabet_checked as Hall.
  rewrite forallb_forall in Hall.
  specialize (Hall n).
  assert (Hin : In n (map N.of_nat (seq 0 64))).
  { apply in_map_iff. exists (N.to_nat n). split; [apply N2Nat.id |].
    apply in_seq. lia. }
  specialize (Hall Hin).
  destruct (base64_value (base64_char n)) as [m |]; [| discriminate].
  apply N.eqb_eq in Hall. now subst.
Qed.

Lemma base64_char_not_padding n : (n < 64)%N -> Ascii.eqb (base64_char n) "=" = false.
Proof.
  intro H. destruct (Ascii.eqb (base64_char n) "=") eqn:E; [| reflexivity].
  apply Ascii.eqb_eq in E.
  pose proof (base64_value_char n H) as Hv. rewrite E in Hv. discriminate.
Qed.

Lemma list_ind3 {A} (P : list A -> Prop) :
  P [] -> (forall a, P [a]) -> (forall a b, P [a; b]) ->
  (forall a b c l, P l -> P (a :: b :: c :: l)) ->
  forall l, P l.
Proof.
  intros H0 H1 H2 H3.
  fix IH 1. intros [| a [| b [| c l]]].
  - exact H0.
  - exact (H1 a).
  - exact (H2 a b).
  - exact (H3 a b c l (IH l)).
Qed.

(** Decoding what [base64] wrote gives the bytes back. *)
Lemma decode_base64_base64 bytes :
  latin1 bytes -> decode_base64 (base64 bytes) = Some bytes.
Proof.
  induction bytes as [| a | a b | a b c l IH] using list_ind3; intro H.
  - reflexivity.
  - inversion H as [| ? ? Ha _]; subst.
    cbn [base64 decode_base64].
    rewrite (base64_value_char (a / 4)), (base64_value_char (a mod 4 * 16))
      by sextet.
    cbn.
    replace (a / 4 * 4 + a mod 4 * 16 / 16)%N with a by sextet.
    reflexivity.
  - inversion H as [| ? ? Ha H']; subst.
    inversion H' as [| ? ? Hb _]; subst.
    cbn [base64 decode_base64].
    rewrite (base64_value_char (a / 4)),
      (base64_value_char (a mod 4 * 16 + b / 16)),
      (base64_value_char (b mod 16 * 4)),
      (base64_char_not_padding (b mod 16 * 4)) by sextet.
    cbn.
    replace (a / 4 * 4 + (a mod 4 * 16 + b / 16) / 16)%N with a by sextet.
    replace ((a mod 4 * 16 + b / 16) mod 16 * 16 + b mod 16 * 4 / 4)%N
      with b by sextet.
    reflexivity.
  - inversion H as [| ? ? Ha H']; subst.
    inversion H' as [| ? ? Hb H'']; subst.
    inversion H'' as [| ? ? Hc Hl]; subst.
    cbn [base64 decode_base64].
    rewrite (base64_value_char (a / 4)),
      (base64_value_char (a mod 4 * 16 + b / 16)),
      (base64_value_char (b mod 16 * 4 + c / 64)),
      (base64_value_char (c mod 64)),
      (base64_char_not_padding (b mod 16 * 4 + c / 64)),
      (base64_char_not_padding (c mod 64)) by sextet.
    rewrite (IH Hl).
    replace (a / 4 * 4 + (a mod 4 * 16 + b / 16) / 16)%N with a by sextet.
    replace ((a mod 4 * 16 + b / 16) mod 16 * 16 + (b mod 16 * 4 + c / 64) / 4)%N
      with b by sextet.
    replace ((b mod 16 * 4 + c / 64) mod 4 * 64 + c mod 64)%N with c by sextet.
    reflexivity.
Qed.

End Base64.

Section TokenLayout.

(** A returned evaluation either failed and issued nothing, leaving the
    world as it was, or succeeded and carries what [generateToken]
    returned. *)
Lemma evaluate_token_inversion rev challenge frames w0 r w' :
  evaluate rev challenge frames w0 = (Returned r, w') ->
  (success r = false /\ token r = None /\ w' = w0)
  \/ (success r = true
      /\ exists t, generateToken rev (id challenge) w0 = (Returned t, w')
                   /\ token r = Some t).
Proof.
  unfold evaluate. destruct (countFrames rev challenge frames) as [g e].
  unfold bind at 1. unfold lift.
  destruct (calculateVariance (map eye_ratio frames)) as [v | err];
    [| discriminate].
  destruct (factorPassed rev (passRatio g (length_number frames))
            && factorPassed rev (passRatio e (length_number frames))
            && isHumanNoiseDetected rev v) eqn:Hs.
  - unfold bind, ret.
    destruct (generateToken rev (id challenge) w0) as [[t | err] w1] eqn:Ht;
      [| discriminate].
    intro H. injection H as <- <-. right. cbn. eauto.
  - unfold bind, ret. intro H. injection H as <- <-. left. cbn. auto.
Qed.

Lemma generateToken_Lenient_inversion challengeId w0 t w1 :
  generateToken Lenient challengeId w0 = (Returned t, w1) ->
  latin1 challengeId
  /\ t = ("MFPOL." ++ base64 challengeId ++ "."
          ++ base64 (lit (Z_toString (clock w0 (ticks w0)))) ++ ".sig_"
          ++ Z_toString16
               (Math_floor (unit_fraction (seeds w0 (draws w0)) * 16777215)))%string
  /\ w1 = mkWorld (clock w0) (S (ticks w0)) (seeds w0) (S (draws w0)).
Proof.
  unfold generateToken, bind, lift, Date_now, Math_random, ret, btoa.
  destruct (latin1b challengeId) eqn:Hid; [| discriminate].
  rewrite latin1b_lit. cbn [clock ticks seeds draws].
  intro H. injection H as <- <-.
  split; [now apply latin1b_true_iff | split; reflexivity].
Qed.

Lemma generateToken_Strict_inversion challengeId w0 t w1 :
  generateToken Strict challengeId w0 = (Returned t, w1) ->
  let header :=
    JSON_object [("alg"%string, JSON_string (lit "HS256"));
                 ("typ"%string, JSON_string (lit "JWT"))] in
  let payload :=
    JSON_object
      [("sub"%string, JSON_string (lit "biometric_auth"));
       ("cid"%string, JSON_string challengeId);
       ("iat"%string,
        JSON_number (Math_floor (inject_Z (clock w0 (ticks w0)) / 1000)));
       ("exp"%string,
        JSON_number
          (Z.add (Math_floor (inject_Z (clock w0 (S (ticks w0))) / 1000)) 600))] in
  latin1 header /\ latin1 payload
  /\ t = ("MFPOL." ++ base64 header ++ "." ++ base64 payload ++ ".sig_0x"
          ++ Z_toString16
               (Math_floor (unit_fraction (seeds w0 (draws w0)) * 16777215)))%string
  /\ w1 = mkWorld (clock w0) (S (S (ticks w0))) (seeds w0) (S (draws w0)).
Proof.
  intros H header payload.
  assert (Hheader : latin1b header = true).
  { apply latin1b_JSON_object.
    repeat constructor; apply latin1b_JSON_string, latin1b_true_iff, latin1b_lit. }
  unfold generateToken, bind, lift, Date_now, Math_random, ret in H.
  fold header in H. rewrite (btoa_latin1 header Hheader) in H.
  cbn [clock ticks seeds draws] in H. fold payload in H.
  unfold btoa in H.
  destruct (latin1b payload) eqn:Hpayload; [| discriminate].
  injection H as <- <-.
  repeat split; try (now apply latin1b_true_iff).
Qed.

Lemma Math_floor_milliseconds (z : Z) :
  Math_floor (inject_Z z / 1000) = (z / 1000)%Z.
Proof.
  unfold Math_floor, Qfloor, Qdiv, Qmult, Qinv, inject_Z. cbn.
  now rewrite Z.mul_1_r.
Qed.

Lemma signature_range (r : Q) :
  0 <= r < 1 -> (0 <= Math_floor (r * 16777215)%Q < 16777215)%Z.
Proof.
  intros [Hlo Hhi]. unfold Math_floor. split.
  - rewrite <- (Qfloor_Z 0). apply Qfloor_resp_le. unfold inject_Z. lra.
  - rewrite Zlt_Qlt. eapply Qle_lt_trans; [apply Qfloor_le |].
    unfold inject_Z. lra.
Qed.

End TokenLayout.

(** X10.  The token of the 0.15 revision reads back: it is [MFPOL.], the
    base-64 text of the challenge identifier, a dot, the base-64 text of
    the decimal clock reading taken at issue, [.sig_] and the hexadecimal
    text of a number from 0 to 0xfffffe. *)
Theorem lenient_token_reads_back challenge frames w r w' t :
  verify Lenient challenge frames w = (Returned r, w') ->
  token r = Some t ->
  exists idPart timePart signature,
    t = ("MFPOL." ++ idPart ++ "." ++ timePart ++ ".sig_"
         ++ Z_toString16 signature)%string
    /\ decode_base64 idPart = Some (id challenge)
    /\ decode_base64 timePart = Some (lit (Z_toString (clock w (S (ticks w)))))
    /\ (0 <= signature < 16777215)%Z.
Proof.
  intros H Ht. verify_doors H.
  - injection H as <- _. discriminate.
  - injection H as <- _. discriminate.
  - destruct (evaluate_token_inversion _ _ _ _ _ _ H)
      as [[_ [Hnone _]] | [_ [t' [Hgen Ht']]]]; [congruence |].
    rewrite Ht in Ht'. injection Ht' as <-.
    destruct (generateToken_Lenient_inversion _ _ _ _ Hgen) as [Hid [-> _]].
    cbn [afterClockRead clock ticks seeds draws].
    do 3 eexists. split; [reflexivity |].
    split; [now apply decode_base64_base64 |].
    split; [apply decode_base64_base64, latin1b_true_iff, latin1b_lit |].
    apply signature_range, unit_fraction_range.
Qed.

Lemma lenient_token_reads_back_witness :
  exists r w' t,
    verify Lenient sampleChallenge (blinkingFrames 8) sampleWorld = (Returned r, w')
    /\ token r = Some t
    /\ exists idPart timePart signature,
         t = ("MFPOL." ++ idPart ++ "." ++ timePart ++ ".sig_"
              ++ Z_toString16 signature)%string
         /\ decode_base64 idPart = Some (id sampleChallenge)
         /\ decode_base64 timePart
            = Some (lit (Z_toString (clock sampleWorld (S (ticks sampleWorld)))))
         /\ (0 <= signature < 16777215)%Z.
Proof.
  do 3 eexists.
  assert (H : verify Lenient sampleChallenge (blinkingFrames 8) sampleWorld
              = (Returned _, _)) by (vm_compute; reflexivity).
  split; [exact H | split; [reflexivity |]].
  exact (lenient_token_reads_back _ _ _ _ _ _ H eq_refl).
Defined.

(** X11.  The token of the 0.20 revision reads back: its second segment decodes
    to the fixed header object and its third to the payload object, which
    carries the challenge identifier as [cid], the second clock reading of
    the call in whole seconds as [iat] and the third one in whole seconds
    plus 600 as [exp]; so [exp] is at least [iat + 600] when the clock did
    not run backwards between the two. *)
Theorem strict_token_reads_back challenge frames w r w' t :
  verify Strict challenge frames w = (Returned r, w') ->
  token r = Some t ->
  exists headerPart payloadPart signature iat exp,
    t = ("MFPOL." ++ headerPart ++ "." ++ payloadPart ++ ".sig_0x"
         ++ Z_toString16 signature)%string
    /\ decode_base64 headerPart
       = Some (JSON_object [("alg"%string, JSON_string (lit "HS256"));
                            ("typ"%string, JSON_string (lit "JWT"))])
    /\ decode_base64 payloadPart
       = Some (JSON_object
                 [("sub"%string, JSON_string (lit "biometric_auth"));
                  ("cid"%string, JSON_string (id challenge));
                  ("iat"%string, JSON_number iat);
                  ("exp"%string, JSON_number exp)])
    /\ iat = (clock w (S (ticks w)) / 1000)%Z
    /\ exp = (clock w (S (S (ticks w))) / 1000 + 600)%Z
    /\ ((clock w (S (ticks w)) <= clock w (S (S (ticks w))))%Z ->
        (iat + 600 <= exp)%Z)
    /\ (0 <= signature < 16777215)%Z.
Proof.
  intros H Ht. verify_doors H.
  - injection H as <- _. discriminate.
  - injection H as <- _. discriminate.
  - destruct (evaluate_token_inversion _ _ _ _ _ _ H)
      as [[_ [Hnone _]] | [_ [t' [Hgen Ht']]]]; [congruence |].
    rewrite Ht in Ht'. injection Ht' as <-.
    destruct (generateToken_Strict_inversion _ _ _ _ Hgen)
      as [Hheader [Hpayload [-> _]]].
    cbn [afterClockRead clock ticks seeds draws] in *.
    rewrite !Math_floor_milliseconds in *.
    do 5 eexists. split; [reflexivity |].
    split; [now apply decode_base64_base64 |].
    split; [now apply decode_base64_base64 |].
    split; [reflexivity | split; [reflexivity | split]].
    + intro Hclock.
      apply Z.add_le_mono_r, Z.div_le_mono; [lia | exact Hclock].
    + apply signature_range, unit_fraction_range.
Qed.

Lemma strict_token_reads_back_witness :
  exists r w' t,
    verify Strict sampleChallenge (blinkingFrames 8) sampleWorld = (Returned r, w')
    /\ token r = Some t
    /\ exists headerPart payloadPart signature,
         t = ("MFPOL." ++ headerPart ++ "." ++ payloadPart ++ ".sig_0x"
              ++ Z_toString16 signature)%string
         /\ decode_base64 payloadPart
            = Some (JSON_object
                      [("sub"%string, JSON_string (lit "biometric_auth"));
                       ("cid"%string, JSON_string (id sampleChallenge));
                       ("iat"%string, JSON_number 1700000000);
                       ("exp"%string, JSON_number 1700000600)]).
Proof.
  do 3 eexists.
  assert (H : verify Strict sampleChallenge (blinkingFrames 8) sampleWorld
              = (Returned _, _)) by (vm_compute; reflexivity).
  split; [exact H | split; [reflexivity |]].
  destruct (strict_token_reads_back _ _ _ _ _ _ H eq_refl)
    as [hp [pp [sg [iat [exp [Et [_ [Hp [Hiat [Hexp _]]]]]]]]]].
  exists hp, pp, sg. split; [exact Et |].
  rewrite Hp, Hiat, Hexp. reflexivity.
Defined.





(** X14.  What a call costs: a result with [success = false] has read the clock
    once and drawn no random number; a successful one has read the clock
    three times in the 0.20 revision and twice in the 0.15 revision and has
    drawn exactly one random number. *)
Theorem verify_clock_and_randomness_use rev challenge frames w r w' :
  verify rev challenge frames w = (Returned r, w') ->
  clock w' = clock w /\ seeds w' = seeds w
  /\ (if success r
      then ticks w' = (ticks w + match rev with Strict => 3 | Lenient => 2 end)%nat
           /\ draws w' = S (draws w)
      else w' = afterClockRead w).
Proof.
  intro H. verify_doors H.
  - injection H as <- <-. repeat split.
  - injection H as <- <-. repeat split.
  - destruct (evaluate_token_inversion _ _ _ _ _ _ H)
      as [[Hs [_ ->]] | [Hs [t [Hgen _]]]]; rewrite Hs.
    + repeat split.
    + destruct rev.
      * destruct (generateToken_Strict_inversion _ _ _ _ Hgen) as [_ [_ [_ ->]]].
        cbn. repeat split; lia.
      * destruct (generateToken_Lenient_inversion _ _ _ _ Hgen) as [_ [_ ->]].
        cbn. repeat split; lia.
Qed.

Lemma verify_clock_and_randomness_use_witness :
  exists r w',
    verify Strict sampleChallenge (blinkingFrames 8) sampleWorld = (Returned r, w')
    /\ success r = true
    /\ ticks w' = 3%nat /\ draws w' = 1%nat.
Proof.
  do 2 eexists.
  assert (H : verify Strict sampleChallenge (blinkingFrames 8) sampleWorld
              = (Returned _, _)) by (vm_compute; reflexivity).
  split; [exact H | split; [reflexivity |]].
  exact (proj2 (proj2 (verify_clock_and_randomness_use _ _ _ _ _ _ H))).
Defined.

(* ================================================================== *)
(** ** Further properties: issuing a challenge *)
(* ================================================================== *)

Section ChallengeFacts.

Lemma length_lit s : List.length (lit s) = String.length s.
Proof.
  unfold lit. rewrite length_map.
  induction s as [| c s IH]; simpl; congruence.
Qed.

Lemma length_toUpperCase s : String.length (toUpperCase s) = String.length s.
Proof. induction s as [| c s IH]; simpl; congruence. Qed.

Lemma length_substring_from n : forall s,
  String.length (substring_from n s) = (String.length s - n)%nat.
Proof.
  induction n as [| n IH]; intros [| c s]; simpl; auto using Nat.sub_0_r.
Qed.

Lemma to_upper_not_lowercase c :
  ~ (97 <= N_of_ascii (to_upper c) <= 122)%N.
Proof.
  destruct c as [[] [] [] [] [] [] [] []]; vm_compute; intros [H1 H2];
    first [now apply H1 | now apply H2].
Qed.

Lemma lit_toUpperCase_no_lowercase s :
  Forall (fun u => ~ (97 <= u <= 122)%N) (lit (toUpperCase s)).
Proof.
  induction s as [| c s IH]; [constructor |].
  cbn. constructor; [apply to_upper_not_lowercase | exact IH].
Qed.


End ChallengeFacts.

(** X15.  The identifier is the base-36 text of the first random number without
    its first seven characters, in upper case: its length is the length of
    that text less seven, so it is empty when the text has seven characters
    or fewer; it holds no lower-case letter and only code units up to
    0xFF. *)
Theorem generated_identifier_shape (Number_toString36 : number -> string) w :
  exists challenge w',
    generateChallenge Number_toString36 w = (Returned challenge, w')
    /\ let text := Number_toString36 (unit_fraction (seeds w (draws w))) in
       List.length (id challenge) = (String.length text - 7)%nat
       /\ ((String.length text <= 7)%nat -> id challenge = [])
       /\ Forall (fun u => ~ (97 <= u <= 122)%N) (id challenge)
       /\ latin1 (id challenge).
Proof.
  eexists. eexists. split; [reflexivity |].
  cbn [id clock ticks seeds draws]. cbv zeta.
  assert (Hlen : List.length
                   (lit (toUpperCase
                      (substring_from 7
                         (Number_toString36 (unit_fraction (seeds w (draws w)))))))
                 = (String.length
                      (Number_toString36 (unit_fraction (seeds w (draws w)))) - 7)%nat).
  { now rewrite length_lit, length_toUpperCase, length_substring_from. }
  split; [exact Hlen | split; [| split]].
  - intro Hshort. apply length_zero_iff_nil. rewrite Hlen. lia.
  - apply lit_toUpperCase_no_lowercase.
  - apply latin1b_true_iff, latin1b_lit.
Qed.


(** X17.  A challenge straight from [generateChallenge] can always be verified:
    [verify] returns a result for every frame sequence and never throws.
    The result is the timeout result exactly when the clock reading taken
    by [verify] is more than 45000 ms past the one taken at creation. *)
Theorem fresh_challenge_always_verifies
    (Number_toString36 : number -> string) rev frames w :
  exists challenge w1 r w2,
    generateChallenge Number_toString36 w = (Returned challenge, w1)
    /\ verify rev challenge frames w1 = (Returned r, w2)
    /\ ((clock w (ticks w) + 45000 < clock w (S (ticks w)))%Z ->
        r = timeoutResult)
    /\ ((clock w (S (ticks w)) <= clock w (ticks w) + 45000)%Z ->
        reasons r <> reasons timeoutResult).
Proof.
  destruct (generateChallenge Number_toString36 w) as [oc w1] eqn:Hgen.
  assert (Hshape : exists challenge,
             oc = Returned challenge
             /\ expiresAt challenge = inject_Z (clock w (ticks w)) + inject_Z 45000
             /\ clock w1 = clock w /\ ticks w1 = S (ticks w)).
  { unfold generateChallenge, bind, Math_random, Date_now, ret in Hgen.
    injection Hgen as <- <-. eexists. repeat split. }
  destruct Hshape as [challenge [-> [Hexp [Hclock Hticks]]]].
  assert (Hid : latin1 (id challenge))
    by exact (generateChallenge_id_latin1 _ _ _ _ Hgen).
  destruct (verify_returns rev challenge frames w1 Hid) as [r [w2 Hr]].
  exists challenge, w1, r, w2.
  split; [reflexivity | split; [exact Hr |]].
  assert (Hnow : currentTime w1 = inject_Z (clock w (S (ticks w))))
    by (unfold currentTime; now rewrite Hclock, Hticks).
  split.
  - intro Hlate.
    assert (Hexpired : expiresAt challenge < currentTime w1).
    { rewrite Hexp, Hnow, <- inject_Z_plus, <- Zlt_Qlt. exact Hlate. }
    rewrite (verify_expired rev challenge frames w1 Hexpired) in Hr.
    now injection Hr as <- _.
  - intro Hintime.
    assert (Hlive : currentTime w1 <= expiresAt challenge).
    { rewrite Hexp, Hnow, <- inject_Z_plus, <- Zle_Qle. exact Hintime. }
    destruct (Nat.lt_ge_cases (List.length frames) 15) as [Hfew | Hmany].
    + rewrite (verify_sparse rev challenge frames w1 Hlive Hfew) in Hr.
      injection Hr as <- _. discriminate.
    + rewrite (verify_dense rev challenge frames w1 Hlive Hmany) in Hr.
      destruct (evaluate_inversion _ _ _ _ _ _ Hr) as [v [_ [_ [_ [Hreasons _]]]]].
      rewrite Hreasons. discriminate.
Qed.

(* ================================================================== *)
(** ** Further properties: the camera side *)
(* ================================================================== *)

Section HandCallback.

Variable Math_sqrt : number -> number.

Hypothesis Math_sqrt_nonneg : forall x, 0 <= x -> 0 <= Math_sqrt x.

(** The loop invariant for the two hand heights: each is the wrist height
    of the last hand seen on its side, if any. *)
Lemma scanHand_heights nose hands : forall init,
  let scan := fold_left (scanHand Math_sqrt nose) hands init in
  (foundLeft scan, scan_left_hand_y scan)
  = match findLast (fun h => num_ge (Point.x (h 0%nat)) 0.5) hands with
    | Some h => (true, Point.y (h 0%nat))
    | None => (foundLeft init, scan_left_hand_y init)
    end
  /\ (foundRight scan, scan_right_hand_y scan)
     = match findLast (fun h => num_lt (Point.x (h 0%nat)) 0.5) hands with
       | Some h => (true, Point.y (h 0%nat))
       | None => (foundRight init, scan_right_hand_y init)
       end.
Proof.
  induction hands as [| h hands IH] using rev_ind; intro init.
  - split; reflexivity.
  - cbv zeta. rewrite fold_left_app. cbn [fold_left].
    unfold findLast. rewrite rev_app_distr. cbn [List.rev app find].
    destruct (IH init) as [IHl IHr]. unfold findLast in IHl, IHr.
    set (scan := fold_left (scanHand Math_sqrt nose) hands init) in *.
    assert (Hsides : forall x, num_lt x 0.5 = negb (num_ge x 0.5))
      by reflexivity.
    unfold scanHand. cbv beta zeta. rewrite !Hsides.
    destruct (num_ge (Point.x (h 0%nat)) 0.5); cbn [negb];
      destruct nose;
      cbn [foundLeft scan_left_hand_y foundRight scan_right_hand_y];
      split; assumption || reflexivity.
Qed.

Lemma scanHand_minNoseDist nose scan h :
  minNoseDist (scanHand Math_sqrt nose scan h)
  = match nose with
    | Some nose =>
        Math_min (minNoseDist scan)
          (Math_sqrt
             (Math_pow2 (Point.x (h 8%nat) - Point.x nose)
              + Math_pow2 (Point.y (h 8%nat) - Point.y nose)))
    | None => minNoseDist scan
    end.
Proof.
  unfold scanHand. cbv zeta.
  destruct nose; destruct (num_ge _ _); try destruct (num_lt _ _); reflexivity.
Qed.

(** The loop invariant for the distance: it stays between 0 and 1, and at
    its initial value while no nose is known. *)
Lemma scanHand_distance nose hands : forall init,
  0 <= minNoseDist init <= 1 ->
  let scan := fold_left (scanHand Math_sqrt nose) hands init in
  0 <= minNoseDist scan <= 1
  /\ (nose = None -> minNoseDist scan = minNoseDist init).
Proof.
  induction hands as [| h hands IH]; intros init Hinit.
  - split; [exact Hinit | reflexivity].
  - cbn [fold_left].
    assert (Hstep : 0 <= minNoseDist (scanHand Math_sqrt nose init h) <= 1).
    { rewrite scanHand_minNoseDist. destruct nose as [nose |]; [| exact Hinit].
      split.
      - apply Math_min_glb; [apply Hinit |].
        apply Math_sqrt_nonneg. unfold Math_pow2.
        pose proof (square_nonneg (Point.x (h 8%nat) - Point.x nose)).
        pose proof (square_nonneg (Point.y (h 8%nat) - Point.y nose)).
        lra.
      - destruct (Math_min_spec (minNoseDist init)
                    (Math_sqrt
                       (Math_pow2 (Point.x (h 8%nat) - Point.x nose)
                        + Math_pow2 (Point.y (h 8%nat) - Point.y nose))))
          as [[_ ->] | [Hlt ->]]; [apply Hinit |].
        apply Qlt_le_weak. eapply Qlt_le_trans; [exact Hlt | apply Hinit]. }
    destruct (IH _ Hstep) as [Hrange Hnone].
    split; [exact Hrange |].
    intros ->. rewrite (Hnone eq_refl). now rewrite scanHand_minNoseDist.
Qed.

Lemma onHandsResults_heights multiHandLandmarks s :
  isClosed s = false ->
  let s' := onHandsResults Math_sqrt multiHandLandmarks s in
  LandmarkData.left_hand_y (sharedState s')
  = match findLast (fun h => num_ge (Point.x (h 0%nat)) 0.5)
            (handsOf multiHandLandmarks) with
    | Some h => Point.y (h 0%nat)
    | None => -1
    end
  /\ LandmarkData.right_hand_y (sharedState s')
     = match findLast (fun h => num_lt (Point.x (h 0%nat)) 0.5)
             (handsOf multiHandLandmarks) with
       | Some h => Point.y (h 0%nat)
       | None => -1
       end.
Proof.
  intros Hopen s'. unfold s', onHandsResults. rewrite Hopen.
  destruct multiHandLandmarks as [[| h hands] |];
    try (cbn; split; reflexivity).
  cbn [handsOf sharedState withHands
       LandmarkData.left_hand_y LandmarkData.right_hand_y].
  match goal with
  | |- context [fold_left ?f ?l ?init] =>
      destruct (scanHand_heights (currentNose s) l init) as [Hl Hr];
      set (scan := fold_left f l init) in *
  end.
  cbv zeta in Hl, Hr.
  destruct (findLast (fun h0 => num_ge (Point.x (h0 0%nat)) 0.5) (h :: hands));
    destruct (findLast (fun h0 => num_lt (Point.x (h0 0%nat)) 0.5) (h :: hands));
    injection Hl as Hl1 Hl2; injection Hr as Hr1 Hr2;
    cbn [foundLeft foundRight] in *;
    rewrite Hl1, Hr1; cbn [negb]; split; assumption || reflexivity.
Qed.

Lemma onHandsResults_keeps_face multiHandLandmarks s :
  isClosed s = false ->
  let s' := onHandsResults Math_sqrt multiHandLandmarks s in
  LandmarkData.shoulder_y (sharedState s') = LandmarkData.shoulder_y (sharedState s)
  /\ LandmarkData.mouth_width (sharedState s') = LandmarkData.mouth_width (sharedState s)
  /\ LandmarkData.brow_distance (sharedState s')
     = LandmarkData.brow_distance (sharedState s)
  /\ LandmarkData.eye_ratio (sharedState s') = LandmarkData.eye_ratio (sharedState s)
  /\ currentNose s' = currentNose s
  /\ isClosed s' = false.
Proof.
  intros Hopen s'. unfold s', onHandsResults. rewrite Hopen.
  destruct multiHandLandmarks as [[| h hands] |]; cbn; repeat split; exact Hopen.
Qed.

Lemma find_mirrored (l : list Landmarks) :
  Forall (fun h => ~ Point.x (h 0%nat) == 0.5) l ->
  option_map (fun h => Point.y (h 0%nat))
    (find (fun h => num_ge (Point.x (h 0%nat)) 0.5) (map mirrored l))
  = option_map (fun h => Point.y (h 0%nat))
      (find (fun h => num_lt (Point.x (h 0%nat)) 0.5) l)
  /\ option_map (fun h => Point.y (h 0%nat))
       (find (fun h => num_lt (Point.x (h 0%nat)) 0.5) (map mirrored l))
     = option_map (fun h => Point.y (h 0%nat))
         (find (fun h => num_ge (Point.x (h 0%nat)) 0.5) l).
Proof.
  induction 1 as [| h l Hh _ [IH1 IH2]]; [split; reflexivity |].
  cbn [map find mirrored Point.x Point.y].
  assert (Hflip : num_ge (1 - Point.x (h 0%nat)) 0.5
                  = num_lt (Point.x (h 0%nat)) 0.5).
  { apply eq_true_iff_eq. rewrite num_ge_true_iff, num_lt_true_iff.
    split; intro H.
    - apply Qnot_le_lt. intro Hle. apply Hh. lra.
    - lra. }
  assert (Hflip' : num_lt (1 - Point.x (h 0%nat)) 0.5
                   = num_ge (Point.x (h 0%nat)) 0.5).
  { unfold num_lt at 1. fold (num_ge (1 - Point.x (h 0%nat)) 0.5).
    rewrite Hflip. unfold num_lt. now rewrite negb_involutive. }
  rewrite Hflip, Hflip'.
  destruct (num_lt (Point.x (h 0%nat)) 0.5), (num_ge (Point.x (h 0%nat)) 0.5);
    cbn [option_map]; split; auto.
Qed.

(** X18.  After the hands callback each hand height is the wrist height of the
    last detected hand on that side of the picture (wrist at [x >= 0.5] for
    the left hand, at [x < 0.5] for the right one), or the sentinel -1 when
    no hand is on that side; what the two fields held before is never
    kept.  The face measurements, the nose and the closed flag stay as
    they were. *)
Theorem hands_callback_sets_both_heights multiHandLandmarks s :
  isClosed s = false ->
  let s' := onHandsResults Math_sqrt multiHandLandmarks s in
  LandmarkData.left_hand_y (sharedState s')
  = match findLast (fun h => num_ge (Point.x (h 0%nat)) 0.5)
            (handsOf multiHandLandmarks) with
    | Some h => Point.y (h 0%nat)
    | None => -1
    end
  /\ LandmarkData.right_hand_y (sharedState s')
     = match findLast (fun h => num_lt (Point.x (h 0%nat)) 0.5)
             (handsOf multiHandLandmarks) with
       | Some h => Point.y (h 0%nat)
       | None => -1
       end
  /\ LandmarkData.shoulder_y (sharedState s') = LandmarkData.shoulder_y (sharedState s)
  /\ LandmarkData.mouth_width (sharedState s') = LandmarkData.mouth_width (sharedState s)
  /\ LandmarkData.brow_distance (sharedState s')
     = LandmarkData.brow_distance (sharedState s)
  /\ LandmarkData.eye_ratio (sharedState s') = LandmarkData.eye_ratio (sharedState s)
  /\ currentNose s' = currentNose s
  /\ isClosed s' = false.
Proof.
  intros Hopen s'.
  destruct (onHandsResults_heights multiHandLandmarks s Hopen) as [Hl Hr].
  pose proof (onHandsResults_keeps_face multiHandLandmarks s Hopen) as Hface.
  split; [exact Hl | split; [exact Hr | exact Hface]].
Qed.

(** X19.  Mirroring the picture left to right swaps the two hands: when no wrist
    sits exactly on the middle line [x = 0.5], the callback run on the
    mirrored hands stores as left height what it stores as right height on
    the original ones, and the other way round. *)
Theorem mirrored_picture_swaps_hands hands s :
  isClosed s = false ->
  Forall (fun h => ~ Point.x (h 0%nat) == 0.5) hands ->
  let original := sharedState (onHandsResults Math_sqrt (Some hands) s) in
  let flipped := sharedState (onHandsResults Math_sqrt (Some (map mirrored hands)) s) in
  LandmarkData.left_hand_y flipped = LandmarkData.right_hand_y original
  /\ LandmarkData.right_hand_y flipped = LandmarkData.left_hand_y original.
Proof.
  intros Hopen Hmiddle original flipped.
  destruct (onHandsResults_heights (Some hands) s Hopen) as [Hl Hr].
  destruct (onHandsResults_heights (Some (map mirrored hands)) s Hopen)
    as [Hl' Hr'].
  cbv zeta in Hl, Hr, Hl', Hr'. cbn [handsOf] in Hl, Hr, Hl', Hr'.
  unfold original, flipped. rewrite Hl, Hr, Hl', Hr'.
  unfold findLast. rewrite <- map_rev.
  assert (Hrev : Forall (fun h => ~ Point.x (h 0%nat) == 0.5) (List.rev hands))
    by (apply Forall_rev; exact Hmiddle).
  destruct (find_mirrored (List.rev hands) Hrev) as [E1 E2].
  assert (Hheight : forall o : option (nat -> Point.t),
             match o with Some h => Point.y (h 0%nat) | None => -1 end
             = match option_map (fun h : nat -> Point.t => Point.y (h 0%nat)) o with
               | Some v => v
               | None => -1
               end)
    by (intros []; reflexivity).
  unfold Landmarks in *. rewrite !Hheight, E1, E2. split; reflexivity.
Qed.

(** X20.  The distance the hands callback stores is never below 0 or above 1,
    hence never the sentinel -1; it is exactly 1 when no hand is reported
    and when no nose is known.  In those two cases the stored snapshot
    fails the touch-nose predicate of both revisions. *)
Theorem hands_callback_distance_range multiHandLandmarks s :
  isClosed s = false ->
  let shared := sharedState (onHandsResults Math_sqrt multiHandLandmarks s) in
  0 <= LandmarkData.hand_nose_dist shared <= 1
  /\ ~ LandmarkData.hand_nose_dist shared == -1
  /\ (handsOf multiHandLandmarks = [] \/ currentNose s = None ->
      LandmarkData.hand_nose_dist shared = 1
      /\ forall rev, gestureDetected rev touch_nose shared = false).
Proof.
  intros Hopen shared.
  assert (Hinit : 0 <= 1 <= 1) by (split; discriminate).
  assert (Hrange : 0 <= LandmarkData.hand_nose_dist shared <= 1
                   /\ (handsOf multiHandLandmarks = [] \/ currentNose s = None ->
                       LandmarkData.hand_nose_dist shared = 1)).
  { unfold shared, onHandsResults. rewrite Hopen.
    destruct multiHandLandmarks as [[| h hands] |];
      try (cbn; split; [exact Hinit | reflexivity]).
    cbn [handsOf sharedState withHands LandmarkData.hand_nose_dist].
    match goal with
    | |- context [fold_left ?f ?l ?init] =>
        destruct (scanHand_distance (currentNose s) l init Hinit) as [Hr Hn]
    end.
    cbv zeta in Hr, Hn. split; [exact Hr |].
    intros [Hempty | Hnose]; [discriminate | exact (Hn Hnose)]. }
  destruct Hrange as [Hrange Hone].
  split; [exact Hrange | split].
  - intro E. rewrite E in Hrange. destruct Hrange as [Hneg _]. now apply Hneg.
  - intro Hcase. specialize (Hone Hcase). split; [exact Hone |].
    intro rev. cbn [gestureDetected]. rewrite Hone.
    destruct rev; reflexivity.
Qed.

End HandCallback.

Lemma hands_callback_sets_both_heights_witness :
  isClosed sampleSensor = false
  /\ LandmarkData.left_hand_y
       (sharedState
          (onHandsResults sampleSqrt
             (Some [sampleHand {| Point.x := 0.7; Point.y := 0.3 |}
                               {| Point.x := 0.6; Point.y := 0.2 |}])
             sampleSensor))
     = 0.3
  /\ LandmarkData.right_hand_y
       (sharedState
          (onHandsResults sampleSqrt
             (Some [sampleHand {| Point.x := 0.7; Point.y := 0.3 |}
                               {| Point.x := 0.6; Point.y := 0.2 |}])
             sampleSensor))
     = -1.
Proof.
  assert (Hopen : isClosed sampleSensor = false) by reflexivity.
  split; [exact Hopen |].
  destruct (hands_callback_sets_both_heights sampleSqrt
              (Some [sampleHand {| Point.x := 0.7; Point.y := 0.3 |}
                                {| Point.x := 0.6; Point.y := 0.2 |}])
              sampleSensor Hopen) as [Hl [Hr _]].
  split; [exact Hl | exact Hr].
Defined.

Lemma sampleSqrt_nonneg x : 0 <= x -> 0 <= sampleSqrt x.
Proof.
  intro Hx. unfold sampleSqrt.
  destruct (Qle_bool x 0) eqn:E; [apply Qle_refl |].
  assert (Hstep : forall y, 0 < y -> 0 < (y + x / y) / 2).
  { intros y Hy. apply Qlt_shift_div_l; [reflexivity |].
    rewrite Qmult_0_l.
    assert (0 <= x / y) by (apply Qle_shift_div_l; [exact Hy | lra]).
    lra. }
  apply Qlt_le_weak. cbn [Nat.iter nat_rect].
  repeat apply Hstep. reflexivity.
Qed.

Lemma hands_callback_distance_range_witness :
  isClosed sampleSensor = false
  /\ 0 <= LandmarkData.hand_nose_dist
            (sharedState
               (onHandsResults sampleSqrt
                  (Some [sampleHand {| Point.x := 0.7; Point.y := 0.3 |}
                                    {| Point.x := 0.6; Point.y := 0.2 |}])
                  sampleSensor)) <= 1.
Proof.
  assert (Hopen : isClosed sampleSensor = false) by reflexivity.
  split; [exact Hopen |].
  exact (proj1 (hands_callback_distance_range sampleSqrt sampleSqrt_nonneg
                  (Some [sampleHand {| Point.x := 0.7; Point.y := 0.3 |}
                                    {| Point.x := 0.6; Point.y := 0.2 |}])
                  sampleSensor Hopen)).
Defined.

Lemma mirrored_picture_swaps_hands_witness :
  isClosed sampleSensor = false
  /\ Forall (fun h : Landmarks => ~ Point.x (h 0%nat) == 0.5)
       [sampleHand {| Point.x := 0.7; Point.y := 0.3 |}
                   {| Point.x := 0.6; Point.y := 0.2 |}]
  /\ LandmarkData.right_hand_y
       (sharedState
          (onHandsResults sampleSqrt
             (Some (map mirrored
                      [sampleHand {| Point.x := 0.7; Point.y := 0.3 |}
                                  {| Point.x := 0.6; Point.y := 0.2 |}]))
             sampleSensor))
     = LandmarkData.left_hand_y
         (sharedState
            (onHandsResults sampleSqrt
               (Some [sampleHand {| Point.x := 0.7; Point.y := 0.3 |}
                                 {| Point.x := 0.6; Point.y := 0.2 |}])
               sampleSensor)).
Proof.
  assert (Hopen : isClosed sampleSensor = false) by reflexivity.
  assert (Hmiddle : Forall (fun h : Landmarks => ~ Point.x (h 0%nat) == 0.5)
                      [sampleHand {| Point.x := 0.7; Point.y := 0.3 |}
                                  {| Point.x := 0.6; Point.y := 0.2 |}]).
  { repeat constructor. intro H. vm_compute in H. discriminate. }
  split; [exact Hopen | split; [exact Hmiddle |]].
  exact (proj2 (mirrored_picture_swaps_hands sampleSqrt _ sampleSensor Hopen Hmiddle)).
Defined.

Section FrameDelivery.

Lemma onHandsResults_no_hands Math_sqrt multiHandLandmarks s :
  isClosed s = false ->
  handsOf multiHandLandmarks = [] ->
  onHandsResults Math_sqrt multiHandLandmarks s
  = {| sharedState := withHands (sharedState s) (-1) (-1) 1;
       currentNose := currentNose s; isClosed := isClosed s |}.
Proof.
  intros Hopen Hnone. unfold onHandsResults. rewrite Hopen.
  destruct multiHandLandmarks as [[| h hands] |]; try reflexivity.
  discriminate.
Qed.

Lemma sentinel_snapshot_fails_every_gesture rev g l :
  LandmarkData.left_hand_y l = -1 ->
  LandmarkData.right_hand_y l = -1 ->
  LandmarkData.hand_nose_dist l = 1 ->
  gestureDetected rev g l = false.
Proof.
  intros Hl Hr Hd. destruct g; cbn [gestureDetected]; rewrite ?Hl, ?Hr, ?Hd;
    destruct rev; reflexivity.
Qed.

End FrameDelivery.


(** X22.  A frame captured right after a hands result without any hand counts
    for no gesture: its landmarks fail the left-hand, right-hand and
    touch-nose predicates of both revisions. *)
Theorem frame_without_hands_counts_for_no_gesture
    (Math_sqrt : number -> number) multiHandLandmarks s prev w :
  isClosed s = false ->
  handsOf multiHandLandmarks = [] ->
  exists f w',
    (landmarks <- cameraSnapshot
                    (sharedState (onHandsResults Math_sqrt multiHandLandmarks s)) ;;
     handleFrame CHALLENGE landmarks prev) w
    = (Returned (prev ++ [f]), w')
    /\ forall rev g, gestureDetected rev g (landmarks f) = false.
Proof.
  intros Hopen Hnone.
  rewrite (onHandsResults_no_hands Math_sqrt _ _ Hopen Hnone).
  unfold bind, cameraSnapshot, handleFrame, Date_now, ret.
  do 2 eexists. split; [reflexivity |].
  intros rev g. now apply sentinel_snapshot_fails_every_gesture.
Qed.

Lemma frame_without_hands_counts_for_no_gesture_witness :
  isClosed sampleSensor = false
  /\ handsOf (Some []) = []
  /\ exists f w',
       (landmarks <- cameraSnapshot
                       (sharedState (onHandsResults sampleSqrt (Some []) sampleSensor)) ;;
        handleFrame CHALLENGE landmarks []) sampleWorld
       = (Returned ([] ++ [f]), w')
       /\ forall rev g, gestureDetected rev g (landmarks f) = false.
Proof.
  assert (Hopen : isClosed sampleSensor = false) by reflexivity.
  assert (Hnone : handsOf (Some []) = []) by reflexivity.
  split; [exact Hopen | split; [exact Hnone |]].
  exact (frame_without_hands_counts_for_no_gesture sampleSqrt (Some [])
           sampleSensor [] sampleWorld Hopen Hnone).
Defined.

(** X23.  Without a face there is no nose to touch: after a face result that
    reports no face, the next hands result stores the distance 1, whatever
    hands it reports, and the snapshot fails the touch-nose predicate of
    both revisions.  The face measurements keep the values they had. *)
Theorem touch_nose_needs_a_face
    (Math_sqrt : number -> number) multiFaceLandmarks multiHandLandmarks s :
  isClosed s = false ->
  multiFaceLandmarks = None \/ multiFaceLandmarks = Some [] ->
  let s' := onHandsResults Math_sqrt multiHandLandmarks
              (onFaceResults multiFaceLandmarks s) in
  LandmarkData.hand_nose_dist (sharedState s') = 1
  /\ (forall rev, gestureDetected rev touch_nose (sharedState s') = false)
  /\ LandmarkData.eye_ratio (sharedState s') = LandmarkData.eye_ratio (sharedState s)
  /\ LandmarkData.mouth_width (sharedState s') = LandmarkData.mouth_width (sharedState s)
  /\ LandmarkData.brow_distance (sharedState s')
     = LandmarkData.brow_distance (sharedState s)
  /\ LandmarkData.shoulder_y (sharedState s') = LandmarkData.shoulder_y (sharedState s).
Proof.
  intros Hopen Hface s'.
  assert (Hlost : onFaceResults multiFaceLandmarks s
                  = {| sharedState := sharedState s; currentNose := None;
                       isClosed := isClosed s |}).
  { unfold onFaceResults. rewrite Hopen. destruct Hface as [-> | ->]; reflexivity. }
  assert (Hdist : LandmarkData.hand_nose_dist (sharedState s') = 1).
  { unfold s'. rewrite Hlost. unfold onHandsResults. cbn [isClosed]. rewrite Hopen.
    destruct multiHandLandmarks as [[| h hands] |]; try reflexivity.
    cbn [sharedState currentNose withHands LandmarkData.hand_nose_dist].
    clear. generalize (h :: hands). intro l.
    match goal with
    | |- minNoseDist (fold_left _ l ?init) = 1 =>
        change 1 with (minNoseDist init) at 2; generalize init
    end.
    induction l as [| h' l IH]; intro init; [reflexivity |].
    cbn [fold_left]. rewrite IH.
    unfold scanHand. cbv zeta.
    destruct (num_ge _ _); try destruct (num_lt _ _); reflexivity. }
  split; [exact Hdist | split].
  - intro rev. cbn [gestureDetected]. rewrite Hdist. destruct rev; reflexivity.
  - unfold s'. rewrite Hlost. unfold onHandsResults. cbn [isClosed]. rewrite Hopen.
    destruct multiHandLandmarks as [[| h hands] |]; cbn; repeat split.
Qed.

Lemma touch_nose_needs_a_face_witness :
  isClosed sampleSensor = false
  /\ ((None : option (list Landmarks)) = None \/ (None : option (list Landmarks)) = Some [])
  /\ LandmarkData.hand_nose_dist
       (sharedState
          (onHandsResults sampleSqrt
             (Some [sampleHand {| Point.x := 0.7; Point.y := 0.3 |}
                               {| Point.x := 0.5; Point.y := 0.4 |}])
             (onFaceResults None sampleSensor)))
     = 1.
Proof.
  assert (Hopen : isClosed sampleSensor = false) by reflexivity.
  assert (Hface : (None : option (list Landmarks)) = None
                  \/ (None : option (list Landmarks)) = Some [])
    by (left; reflexivity).
  split; [exact Hopen | split; [exact Hface |]].
  exact (proj1 (touch_nose_needs_a_face sampleSqrt None
                  (Some [sampleHand {| Point.x := 0.7; Point.y := 0.3 |}
                                    {| Point.x := 0.5; Point.y := 0.4 |}])
                  sampleSensor Hopen Hface)).
Defined.

Section FaceCallback.



End FaceCallback.



Section Countdown.

Lemma countdownTick_compat a b : a == b -> countdownTick a == countdownTick b.
Proof.
  intro H. unfold countdownTick.
  assert (E : Qle_bool a 1 = Qle_bool b 1).
  { apply eq_true_iff_eq. rewrite !Qle_bool_iff, H. tauto. }
  rewrite E. destruct (Qle_bool b 1); [reflexivity | now rewrite H].
Qed.

Lemma countdownTick_whole (k : nat) :
  countdownTick (inject_Z (Z.of_nat k)) == inject_Z (Z.of_nat (k - 1)).
Proof.
  unfold countdownTick.
  destruct (Qle_bool (inject_Z (Z.of_nat k)) 1) eqn:E.
  - apply Qle_bool_iff in E. change 1 with (inject_Z 1) in E.
    rewrite <- Zle_Qle in E.
    replace (k - 1)%nat with 0%nat by lia. reflexivity.
  - assert (Hk : (1 < Z.of_nat k)%Z).
    { apply Z.lt_nge. intro Hle. rewrite Zle_Qle in Hle.
      apply Qle_bool_iff in Hle. change (inject_Z 1) with 1 in Hle. congruence. }
    replace (Z.of_nat (k - 1)) with (Z.of_nat k - 1)%Z by lia.
    unfold Z.sub. rewrite inject_Z_plus. reflexivity.
Qed.

End Countdown.

(** X26.  The countdown never goes below zero, whatever it is applied to; started
    at a whole number of seconds it loses one per tick until it reaches 0,
    where it stays: after [n] ticks it shows the start less [n], or 0. *)
Theorem countdown_runs_to_zero (start n : nat) :
  (forall prev, 0 <= countdownTick prev)
  /\ Nat.iter n countdownTick (inject_Z (Z.of_nat start))
     == inject_Z (Z.of_nat (start - n)).
Proof.
  split.
  - intro prev. unfold countdownTick.
    destruct (Qle_bool prev 1) eqn:E; [apply Qle_refl |].
    assert (1 < prev).
    { apply Qnot_le_lt. intro H. apply Qle_bool_iff in H. congruence. }
    lra.
  - induction n as [| n IH]; cbn [Nat.iter nat_rect].
    + now rewrite Nat.sub_0_r.
    + rewrite (countdownTick_compat _ _ IH), countdownTick_whole.
      replace (start - n - 1)%nat with (start - S n)%nat by lia. reflexivity.
Qed.

Section UnseenSubject.

Lemma passingFrames_all (p : FrameData -> bool) frames :
  Forall (fun f => p f = true) frames ->
  passingFrames p frames = List.length frames.
Proof.
  induction 1 as [| f l Hf _ IH]; [reflexivity |].
  rewrite passingFrames_cons, Hf, IH. reflexivity.
Qed.

Lemma passingFrames_none (p : FrameData -> bool) frames :
  Forall (fun f => p f = false) frames ->
  passingFrames p frames = 0%nat.
Proof.
  induction 1 as [| f l Hf _ IH]; [reflexivity |].
  rewrite passingFrames_cons, Hf, IH. reflexivity.
Qed.

Lemma initialSharedState_predicates mounted rev :
  expressionDetected rev frown (initialSharedState mounted) = true
  /\ expressionDetected rev smile (initialSharedState mounted) = false
  /\ expressionDetected rev blink (initialSharedState mounted) = false
  /\ forall g, gestureDetected rev g (initialSharedState mounted) = false.
Proof.
  destruct rev; repeat split; try reflexivity; intros []; reflexivity.
Qed.

End UnseenSubject.

(** X25.  A subject that was never seen still frowns.  When every frame carries
    the snapshot the camera starts with (no face and no hand detected yet,
    any timestamp), a frown challenge has its expression factor passed on
    all frames, because [brow_distance] starts at 0, below the frown
    threshold of both revisions; no gesture is ever counted, so the result
    still has [success = false], and its score is at least 40. *)
Theorem unseen_subject_passes_frown rev challenge frames w r w' :
  expression challenge = frown ->
  Forall (fun f => exists mounted, landmarks f = initialSharedState mounted) frames ->
  currentTime w <= expiresAt challenge ->
  (15 <= List.length frames)%nat ->
  verify rev challenge frames w = (Returned r, w') ->
  snd (countFrames rev challenge frames) = Z.of_nat (List.length frames)
  /\ fst (countFrames rev challenge frames) = 0%Z
  /\ success r = false
  /\ 40 <= score r
  /\ exists gestureLine expressionLine rest,
       reasons r = gestureLine :: expressionLine :: rest
       /\ isFailureLine gestureLine = true
       /\ isFailureLine expressionLine = false.
Proof.
  intros Hfrown Hinit Hlive Hmany H.
  assert (He : passingFrames (expressionPassing rev challenge) frames
               = List.length frames).
  { apply passingFrames_all. eapply Forall_impl; [| exact Hinit].
    intros f [m Hm]. unfold expressionPassing. rewrite Hfrown, Hm.
    apply initialSharedState_predicates. }
  assert (Hg : passingFrames (gesturePassing rev challenge) frames = 0%nat).
  { apply passingFrames_none. eapply Forall_impl; [| exact Hinit].
    intros f [m Hm]. unfold gesturePassing. rewrite Hm.
    apply initialSharedState_predicates. }
  rewrite countFrames_spec. cbn [fst snd]. rewrite He, Hg.
  split; [reflexivity | split; [reflexivity |]].
  rewrite (verify_dense rev challenge frames w Hlive Hmany) in H.
  destruct (evaluate_inversion _ _ _ _ _ _ H) as [v [_ [Hs [Hscore [Hr _]]]]].
  cbv zeta in Hs, Hscore, Hr.
  assert (Hn : 0 < inject_Z (Z.of_nat (List.length frames))).
  { change 0 with (inject_Z 0). rewrite <- Zlt_Qlt. lia. }
  assert (HgR : frameRatio (gesturePassing rev challenge) frames == 0).
  { unfold frameRatio. rewrite Hg. cbn [Z.of_nat]. unfold Qdiv.
    change (inject_Z 0) with 0. ring. }
  assert (HeR : frameRatio (expressionPassing rev challenge) frames == 1).
  { unfold frameRatio. rewrite He. field.
    intro E. rewrite E in Hn. discriminate. }
  assert (HgF : factorPassed rev (frameRatio (gesturePassing rev challenge) frames)
                = false).
  { apply not_true_is_false. rewrite factorPassed_true_iff, HgR.
    intro Hle. destruct rev; cbn in Hle; now apply Hle. }
  assert (HeT : factorPassed rev (frameRatio (expressionPassing rev challenge) frames)
                = true).
  { rewrite factorPassed_true_iff, HeR. destruct rev; discriminate. }
  rewrite HgF in Hs, Hr. rewrite HeT in Hr. cbn [andb] in Hs.
  split; [exact Hs | split].
  - rewrite Hscore. change 40 with (inject_Z 40). rewrite <- Zle_Qle.
    unfold displayScore.
    pose proof (ratioPoints_range _
                  (frameRatio_nonneg (gesturePassing rev challenge) frames)).
    pose proof (ratioPoints_range _
                  (frameRatio_nonneg (expressionPassing rev challenge) frames)).
    pose proof (livenessPoints_range (isHumanNoiseDetected rev v)).
    assert (Hfull : 40 <= ratioPoints
                            (frameRatio (expressionPassing rev challenge) frames)).
    { change 40 with (1 * 40). apply ratioPoints_at_least; [apply Qle_refl |].
      rewrite HeR. discriminate. }
    apply (Math_round_between _ 40 100); unfold inject_Z; lra.
  - do 3 eexists. split; [exact Hr |].
    split; [apply gestureReason_kind | apply expressionReason_kind].
Qed.

Lemma unseen_subject_passes_frown_witness :
  expression frownChallenge = frown
  /\ Forall (fun f => exists mounted, landmarks f = initialSharedState mounted)
       (unseenFrames 15)
  /\ currentTime sampleWorld <= expiresAt frownChallenge
  /\ (15 <= List.length (unseenFrames 15))%nat
  /\ exists r w',
       verify Strict frownChallenge (unseenFrames 15) sampleWorld = (Returned r, w')
       /\ success r = false /\ 40 <= score r.
Proof.
  assert (Hfrown : expression frownChallenge = frown) by reflexivity.
  assert (Hinit : Forall (fun f => exists mounted,
                            landmarks f = initialSharedState mounted)
                    (unseenFrames 15))
    by (repeat constructor; exists 1700000000000%Z; reflexivity).
  assert (Hlive : currentTime sampleWorld <= expiresAt frownChallenge)
    by (vm_compute; discriminate).
  assert (Hmany : (15 <= List.length (unseenFrames 15))%nat) by (simpl; lia).
  split; [exact Hfrown | split; [exact Hinit | split; [exact Hlive |
    split; [exact Hmany |]]]].
  eexists. eexists.
  assert (H : verify Strict frownChallenge (unseenFrames 15) sampleWorld
              = (Returned _, _)) by (vm_compute; reflexivity).
  split; [exact H |].
  destruct (unseen_subject_passes_frown _ _ _ _ _ _ Hfrown Hinit Hlive Hmany H)
    as [_ [_ [Hs [Hsc _]]]].
  split; [exact Hs | exact Hsc].
Defined.
